(** * resgate: configuration resolution and process lifecycle

    A shallow embedding of [main.go]: [Config], [Config.SetDefault],
    [Config.Init], [usage], [printAndDie] and [main], together with the
    parts of Go's [strconv], [flag] and [encoding/json] packages and of the
    file system that [Init] goes through.

    Conventions.
    - Go's [int] and [uint] are 64 bits wide (the Dockerfile builds with
      golang:1.12.5 on alpine); they are carried as [Z] with the
      range checks written where Go makes them.  [uint16] is a [Z] reduced
      modulo [2^16] at the conversion.
    - A Go [string] is a Rocq [string] (a sequence of bytes).
    - [*string] is [option string].
    - The process is a state monad over [Process] (files, the two output
      streams, the calls made to the service, a clock) whose computations
      end in a value, in [os.Exit] or in a panic. *)

From stdpp Require Import base option list strings gmap sorting.
From Stdlib Require Import ZArith Ascii String Lia.

Local Open Scope string_scope.
Local Open Scope Z_scope.

(** ** Errors and printed lines

    Error values and the lines the program prints are kept symbolic: the
    model records which message is produced and what it wraps, not the
    bytes of its rendering. *)

(** [strconv.NumError.Err] *)
Inductive numError := ErrSyntax | ErrRange.

Inductive error :=
  (* package flag, [FlagSet.failf] *)
  | BadFlagSyntax (s : string)                 (* bad flag syntax: %s *)
  | FlagNotDefined (name : string)             (* flag provided but not defined: -%s *)
  | FlagNeedsArgument (name : string)          (* flag needs an argument: -%s *)
  | InvalidBooleanValue (value name : string)  (* invalid boolean value %q for -%s: %v *)
  | InvalidValue (value name : string) (e : numError) (* invalid value %q for flag -%s: %v *)
  | ErrHelp                                    (* flag: help requested *)
  (* package os *)
  | PathError (op path : string)               (* any error but "does not exist" *)
  | NotExist (path : string)                   (* os.IsNotExist *)
  (* package encoding/json *)
  | SyntaxError                                (* json.SyntaxError *)
  | UnmarshalTypeError (field : string)        (* json.UnmarshalTypeError *)
  (* the service *)
  | ServiceError (text : string)
  (* main.go, [fmt.Errorf] *)
  | ErrorLoadingConfigFile (err : error)       (* error loading config file: %s *)
  | ErrorEncodingConfig (err : error)          (* error encoding config: %s *)
  | ErrorParsingConfigFile (err : error).      (* error parsing config file: %s *)

(** What [printAndDie] and [usage] are given to print. *)
Inductive message :=
  | ErrorText (err : error)                    (* err.Error() *)
  | ErrorParsingArguments (err : error)        (* error parsing arguments: %s *)
  | InvalidPort (port : Z)                     (* invalid port "%d": must be less than 65536 *)
  | Literal (s : string)
  | DefaultUsage.                              (* flag's own usage listing *)

(** ** Package strconv (Go 1.12) *)
Module strconv.

(** The value of one character as a digit, as in the loop of
    [ParseUint]. *)
Definition digit (c : ascii) : option Z :=
  let n := Z.of_nat (nat_of_ascii c) in
  if (48 <=? n) && (n <=? 57) then Some (n - 48)
  else if (97 <=? n) && (n <=? 122) then Some (n - 97 + 10)
  else if (65 <=? n) && (n <=? 90) then Some (n - 65 + 10)
  else None.

(** The digit loop of [ParseUint] for 64 bits: [n] is the value read so
    far.  [n >= cutoff] means [n * base] overflows. *)
Fixpoint digits (base : Z) (s : string) (n : Z) : numError + Z :=
  match s with
  | EmptyString => inr n
  | String c s' =>
      match digit c with
      | None => inl ErrSyntax
      | Some d =>
          if base <=? d then inl ErrSyntax
          else if (2 ^ 64 - 1) / base + 1 <=? n then inl ErrRange
          else if 2 ^ 64 - 1 <? n * base + d then inl ErrRange
          else digits base s' (n * base + d)
      end
  end.

(** [ParseUint(s, 0, 64)]: base 0 looks for the prefixes 0x and 0. *)
Definition ParseUint (s : string) : numError + Z :=
  match s with
  | EmptyString => inl ErrSyntax
  | String "0" (String c s') =>
      if (c =? "x")%char || (c =? "X")%char then
        match s' with
        | EmptyString => inl ErrSyntax
        | _ => digits 16 s' 0
        end
      else digits 8 (String c s') 0
  | String "0" EmptyString => digits 8 EmptyString 0
  | _ => digits 10 s 0
  end.

(** [ParseInt(s, 0, 64)] *)
Definition ParseInt (s : string) : numError + Z :=
  match s with
  | EmptyString => inl ErrSyntax
  | String c s' =>
      let neg := (c =? "-")%char in
      let s1 := if (c =? "+")%char || neg then s' else s in
      match ParseUint s1 with
      | inl ErrSyntax => inl ErrSyntax
      | inl ErrRange => inl ErrRange
      | inr un =>
          if negb neg && (2 ^ 63 <=? un) then inl ErrRange
          else if neg && (2 ^ 63 <? un) then inl ErrRange
          else inr (if neg then - un else un)
      end
  end.

Definition ParseBool (s : string) : option bool :=
  if existsb (String.eqb s) ["1"; "t"; "T"; "TRUE"; "true"; "True"] then Some true
  else if existsb (String.eqb s) ["0"; "f"; "F"; "FALSE"; "false"; "False"] then Some false
  else None.

End strconv.

(** ** Package server: the configuration of the service *)
Module server.

(** Modelled from the spec: the declaration of [server.Config] is not part
    of the sources.  Its fields are the ones [Init] binds flags to
    ([Port], [WSPath], [APIPath], [HeaderAuth], [TLS], [TLSCert],
    [TLSKey]), with the types [Init] uses them at. *)
Record Config := mkConfig {
  Port : Z;                      (* uint16 *)
  WSPath : string;
  APIPath : string;
  HeaderAuth : option string;    (* *string *)
  TLS : bool;
  TLSCert : string;
  TLSKey : string
}.

(** Modelled from the spec: [server.Config.SetDefault] is not part of the
    sources.  It fills the fields that are at their zero value with the
    defaults that the spec and [usageStr] document: port 8080, WebSocket
    path [/], resource path [/api/]. *)
Definition SetDefault (c : Config) : Config :=
  let c := if Port c =? 0
           then mkConfig 8080 (WSPath c) (APIPath c) (HeaderAuth c) (TLS c) (TLSCert c) (TLSKey c)
           else c in
  let c := if String.eqb (WSPath c) ""
           then mkConfig (Port c) "/" (APIPath c) (HeaderAuth c) (TLS c) (TLSCert c) (TLSKey c)
           else c in
  if String.eqb (APIPath c) ""
  then mkConfig (Port c) (WSPath c) "/api/" (HeaderAuth c) (TLS c) (TLSCert c) (TLSKey c)
  else c.

End server.

(** ** main.go: the configuration *)

Definition stopTimeout : Z := 10 * 1000000000.   (* 10 * time.Second, in ns *)

Definition usageStr : string := "
Usage: resgate [options]

Server Options:
    -n, --nats <url>                 NATS Server URL (default: nats://127.0.0.1:4222)
    -p, --port <port>                HTTP port for client connections (default: 8080)
    -w, --wspath <path>              WebSocket path for clients (default: /)
    -a, --apipath <path>             Web resource path for clients (default: /api/)
    -r, --reqtimeout <seconds>       Timeout duration for NATS requests (default: 5)
    -u, --headauth <method>          Resource method for header authentication
        --tls                        Enable TLS for HTTP (default: false)
        --tlscert <file>             HTTP server certificate file
        --tlskey <file>              Private key for HTTP server certificate
    -c, --config <file>              Configuration file

Common Options:
    -h, --help                       Show this message
".

(** [Config] holds server configuration; [server_Config] is the embedded
    [server.Config]. *)
Record Config := mkConfig {
  NatsURL : string;
  RequestTimeout : Z;              (* int *)
  Debug : bool;
  server_Config : server.Config
}.

(** The fields of the embedded struct, promoted as in Go. *)
Definition Port (c : Config) := server.Port (server_Config c).
Definition WSPath (c : Config) := server.WSPath (server_Config c).
Definition APIPath (c : Config) := server.APIPath (server_Config c).
Definition HeaderAuth (c : Config) := server.HeaderAuth (server_Config c).
Definition TLS (c : Config) := server.TLS (server_Config c).
Definition TLSCert (c : Config) := server.TLSCert (server_Config c).
Definition TLSKey (c : Config) := server.TLSKey (server_Config c).

Definition set_NatsURL (v : string) (c : Config) : Config :=
  mkConfig v (RequestTimeout c) (Debug c) (server_Config c).
Definition set_RequestTimeout (v : Z) (c : Config) : Config :=
  mkConfig (NatsURL c) v (Debug c) (server_Config c).
Definition set_Debug (v : bool) (c : Config) : Config :=
  mkConfig (NatsURL c) (RequestTimeout c) v (server_Config c).
Definition set_server (f : server.Config -> server.Config) (c : Config) : Config :=
  mkConfig (NatsURL c) (RequestTimeout c) (Debug c) (f (server_Config c)).
Definition set_Port (v : Z) : Config -> Config :=
  set_server (fun s => server.mkConfig v (server.WSPath s) (server.APIPath s)
    (server.HeaderAuth s) (server.TLS s) (server.TLSCert s) (server.TLSKey s)).
Definition set_WSPath (v : string) : Config -> Config :=
  set_server (fun s => server.mkConfig (server.Port s) v (server.APIPath s)
    (server.HeaderAuth s) (server.TLS s) (server.TLSCert s) (server.TLSKey s)).
Definition set_APIPath (v : string) : Config -> Config :=
  set_server (fun s => server.mkConfig (server.Port s) (server.WSPath s) v
    (server.HeaderAuth s) (server.TLS s) (server.TLSCert s) (server.TLSKey s)).
Definition set_HeaderAuth (v : option string) : Config -> Config :=
  set_server (fun s => server.mkConfig (server.Port s) (server.WSPath s) (server.APIPath s)
    v (server.TLS s) (server.TLSCert s) (server.TLSKey s)).
Definition set_TLS (v : bool) : Config -> Config :=
  set_server (fun s => server.mkConfig (server.Port s) (server.WSPath s) (server.APIPath s)
    (server.HeaderAuth s) v (server.TLSCert s) (server.TLSKey s)).
Definition set_TLSCert (v : string) : Config -> Config :=
  set_server (fun s => server.mkConfig (server.Port s) (server.WSPath s) (server.APIPath s)
    (server.HeaderAuth s) (server.TLS s) v (server.TLSKey s)).
Definition set_TLSKey (v : string) : Config -> Config :=
  set_server (fun s => server.mkConfig (server.Port s) (server.WSPath s) (server.APIPath s)
    (server.HeaderAuth s) (server.TLS s) (server.TLSCert s) v).

(** [var cfg Config]: every field at its zero value. *)
Definition zeroConfig : Config :=
  mkConfig "" 0 false (server.mkConfig 0 "" "" None false "" "").

(** [SetDefault] sets the default values. *)
Definition SetDefault (c : Config) : Config :=
  let c := if String.eqb (NatsURL c) "" then set_NatsURL "nats://127.0.0.1:4222" c else c in
  let c := if RequestTimeout c =? 0 then set_RequestTimeout 5 c else c in
  set_server server.SetDefault c.

(** ** Package encoding/json, as far as [Config] goes through it

    A document is carried as the tree the decoder sees, not as text: an
    object is the sequence of its members in the order of the text
    (duplicates kept).  A member value that no field of [Config] can take
    (an array, a nested object, a number with a fraction or an exponent) is
    [Other].  The literal [-0] is not told apart from [0], strings are
    taken to be valid UTF-8, and of the decoder's case folding only the
    ASCII part is modelled.  Indentation is a matter of the text and has
    no counterpart here. *)
Module json.

Inductive value :=
  | Null
  | Bool (b : bool)
  | Integer (n : Z)
  | Str (s : string)
  | Other.

Inductive document :=
  | Object (members : list (string * value))
  | Value (v : value).

(** The fields of [Config] in the order of declaration, the embedded
    struct flattened. *)
Inductive field :=
  | fNatsURL | fRequestTimeout | fDebug
  | fPort | fWSPath | fAPIPath | fHeaderAuth | fTLS | fTLSCert | fTLSKey.

(** The member names: the tags of main.go for the first three.
    Modelled from the spec: the tags of [server.Config] are not part of
    the sources; its members carry the names of the spec's data model
    (the Go field names up to case, which is all the decoder looks at). *)
Definition fields : list (string * field) :=
  [ ("natsUrl", fNatsURL); ("requestTimeout", fRequestTimeout); ("debug", fDebug);
    ("port", fPort); ("wsPath", fWSPath); ("apiPath", fAPIPath);
    ("headerAuth", fHeaderAuth); ("tls", fTLS); ("tlsCert", fTLSCert);
    ("tlsKey", fTLSKey) ].

Definition lower (c : ascii) : ascii :=
  let n := nat_of_ascii c in
  if (65 <=? n)%nat && (n <=? 90)%nat then ascii_of_nat (n + 32) else c.

Fixpoint equalFold (s t : string) : bool :=
  match s, t with
  | EmptyString, EmptyString => true
  | String a s', String b t' => (lower a =? lower b)%char && equalFold s' t'
  | _, _ => false
  end.

(** The field a key selects: an exact match, or else the first field
    that matches up to case. *)
Definition findField (key : string) : option field :=
  match List.find (fun nf => String.eqb (fst nf) key) fields with
  | Some nf => Some (snd nf)
  | None =>
      match List.find (fun nf => equalFold (fst nf) key) fields with
      | Some nf => Some (snd nf)
      | None => None
      end
  end.

(** Storing one member value in a field.  [null] leaves a field that is
    not a pointer as it is. *)
Definition store_string (name : string) (set : string -> Config -> Config)
    (v : value) (c : Config) : error + Config :=
  match v with
  | Null => inr c
  | Str s => inr (set s c)
  | _ => inl (UnmarshalTypeError name)
  end.

Definition store_bool (name : string) (set : bool -> Config -> Config)
    (v : value) (c : Config) : error + Config :=
  match v with
  | Null => inr c
  | Bool b => inr (set b c)
  | _ => inl (UnmarshalTypeError name)
  end.

Definition store (f : field) (v : value) (c : Config) : error + Config :=
  match f with
  | fNatsURL => store_string "natsUrl" set_NatsURL v c
  | fRequestTimeout =>
      match v with
      | Null => inr c
      | Integer n =>
          if (- 2 ^ 63 <=? n) && (n <? 2 ^ 63) then inr (set_RequestTimeout n c)
          else inl (UnmarshalTypeError "requestTimeout")
      | _ => inl (UnmarshalTypeError "requestTimeout")
      end
  | fDebug => store_bool "debug" set_Debug v c
  | fPort =>
      match v with
      | Null => inr c
      | Integer n =>
          if (0 <=? n) && (n <? 2 ^ 16) then inr (set_Port n c)
          else inl (UnmarshalTypeError "port")
      | _ => inl (UnmarshalTypeError "port")
      end
  | fWSPath => store_string "wsPath" set_WSPath v c
  | fAPIPath => store_string "apiPath" set_APIPath v c
  | fHeaderAuth =>
      match v with
      | Null => inr (set_HeaderAuth None c)
      | Str s => inr (set_HeaderAuth (Some s) c)
      | _ => inl (UnmarshalTypeError "headerAuth")
      end
  | fTLS => store_bool "tls" set_TLS v c
  | fTLSCert => store_string "tlsCert" set_TLSCert v c
  | fTLSKey => store_string "tlsKey" set_TLSKey v c
  end.

(** The members of an object are stored one after the other.  A member
    with no field is skipped; a value of the wrong type is skipped too,
    and the first such error is what [Unmarshal] returns in the end. *)
Fixpoint object (ms : list (string * value)) (c : Config) (err : option error)
    : Config * option error :=
  match ms with
  | [] => (c, err)
  | (key, v) :: ms' =>
      match findField key with
      | None => object ms' c err
      | Some f =>
          match store f v c with
          | inr c' => object ms' c' err
          | inl e => object ms' c (match err with Some _ => err | None => Some e end)
          end
      end
  end.

(** [json.Unmarshal(data, c)].  [data] is [None] for bytes that are not
    a JSON text: nothing is stored then. *)
Definition Unmarshal (data : option document) (c : Config) : Config * option error :=
  match data with
  | None => (c, Some SyntaxError)
  | Some (Value Null) => (c, None)
  | Some (Value _) => (c, Some (UnmarshalTypeError ""))
  | Some (Object ms) => object ms c None
  end.

(** The object a [Config] is written as: [debug] is [omitempty]; a nil
    [HeaderAuth] is written as [null]. *)
Definition encode (c : Config) : document :=
  Object (
    [ ("natsUrl", Str (NatsURL c)); ("requestTimeout", Integer (RequestTimeout c)) ]
    ++ (if Debug c then [ ("debug", Bool true) ] else [])
    ++ [ ("port", Integer (Port c)); ("wsPath", Str (WSPath c));
         ("apiPath", Str (APIPath c));
         ("headerAuth", match HeaderAuth c with Some s => Str s | None => Null end);
         ("tls", Bool (TLS c)); ("tlsCert", Str (TLSCert c));
         ("tlsKey", Str (TLSKey c)) ]).

(** [json.MarshalIndent(c, "", "\t")].  No field of [Config] can fail to
    encode. *)
Definition MarshalIndent (c : Config) : error + option document :=
  inr (Some (encode c)).

End json.

(** ** The process

    What a run acts on: the files, the output streams, the calls made to
    the service and the time spent waiting. *)

(** A path that holds something: a file that cannot be read (an error other
    than "does not exist"), or a file and its contents. *)
Inductive node :=
  | Unreadable
  | Contents (data : option json.document).

(** The calls [main] makes to its collaborators. *)
Inductive call :=
  | NewStdLogger (debug trace : bool)
  | NewService (url : string) (requestTimeout : Z) (cfg : server.Config)
  | SetLogger
  | Start
  | Stop.

Record Process := mkProcess {
  files : gmap string node;
  readonly : gset string;        (* paths at which a file cannot be created *)
  stdout : list message;
  stderr : list message;
  calls : list call;
  clock : Z                      (* ns spent in the two select statements *)
}.

Inductive outcome (A : Type) :=
  | Return (a : A)
  | Exit (code : Z)              (* os.Exit(code) *)
  | Panic (msg : string).
Arguments Return {A} a.
Arguments Exit {A} code.
Arguments Panic {A} msg.

Definition M (A : Type) : Type := Process -> Process * outcome A.

Definition ret {A} (a : A) : M A := fun p => (p, Return a).

Definition bind {A B} (m : M A) (k : A -> M B) : M B :=
  fun p =>
    match m p with
    | (p', Return a) => k a p'
    | (p', Exit code) => (p', Exit code)
    | (p', Panic msg) => (p', Panic msg)
    end.

Notation "x <- m ;; k" := (bind m (fun x => k))
  (at level 100, m at next level, right associativity).
Notation "m ;;; k" := (bind m (fun _ => k))
  (at level 100, right associativity).

Module os.
Definition Exit {A} (code : Z) : M A := fun p => (p, Exit code).
Definition Stdout (m : message) : M unit :=
  fun p => (mkProcess (files p) (readonly p) (stdout p ++ [m]) (stderr p) (calls p) (clock p),
            Return tt).
Definition Stderr (m : message) : M unit :=
  fun p => (mkProcess (files p) (readonly p) (stdout p) (stderr p ++ [m]) (calls p) (clock p),
            Return tt).
Definition IsNotExist (err : error) : bool :=
  match err with NotExist _ => true | _ => false end.
End os.

Definition panic {A} (msg : string) : M A := fun p => (p, Panic msg).

Module ioutil.
Definition ReadFile (filename : string) : M (error + option json.document) :=
  fun p =>
    (p, Return match files p !! filename with
               | None => inl (NotExist filename)
               | Some Unreadable => inl (PathError "open" filename)
               | Some (Contents data) => inr data
               end).

Definition WriteFile (filename : string) (data : option json.document) : M (option error) :=
  fun p =>
    if bool_decide (filename ∈ readonly p)
    then (p, Return (Some (PathError "open" filename)))
    else (mkProcess (<[filename := Contents data]> (files p)) (readonly p)
            (stdout p) (stderr p) (calls p) (clock p),
          Return None).
End ioutil.

(** ** Package flag (Go 1.12)

    A flag is bound to a variable through a pointer; here the pointer is
    the function that writes the variable in the store [V] of the caller.
    [Set] parses the text of a value and yields the write to perform. *)
Module flag.

Inductive ErrorHandling := ContinueOnError | ExitOnError | PanicOnError.

Section FlagSet.
Context {V : Type}.

Record Flag := mkFlag {
  Name : string;
  IsBoolFlag : bool;
  Set_ : string -> numError + (V -> V)
}.

Record FlagSet := mkFlagSet {
  name : string;
  errorHandling : ErrorHandling;
  Usage : option (M unit);
  formal : gmap string Flag;
  actual : gset string         (* the names of the flags that were set *)
}.

Definition NewFlagSet (name : string) (errorHandling : ErrorHandling) : FlagSet :=
  mkFlagSet name errorHandling None ∅ ∅.

Definition set_Usage (u : M unit) (f : FlagSet) : FlagSet :=
  mkFlagSet (name f) (errorHandling f) (Some u) (formal f) (actual f).

(** [f.Var(value, name, usage)]: the flag is entered in [formal]. *)
Definition Var (fl : Flag) (f : FlagSet) : FlagSet :=
  mkFlagSet (name f) (errorHandling f) (Usage f) (<[Name fl := fl]> (formal f)) (actual f).

(** [BoolVar], [StringVar], [UintVar] and [IntVar] first store the
    default in the variable, then define the flag. *)
Definition BoolVar (p : bool -> V -> V) (name : string) (value : bool)
    (fv : FlagSet * V) : FlagSet * V :=
  (Var (mkFlag name true (fun s =>
          match strconv.ParseBool s with
          | Some b => inr (p b)
          | None => inl ErrSyntax
          end)) (fst fv),
   p value (snd fv)).

Definition StringVar (p : string -> V -> V) (name : string) (value : string)
    (fv : FlagSet * V) : FlagSet * V :=
  (Var (mkFlag name false (fun s => inr (p s))) (fst fv), p value (snd fv)).

Definition UintVar (p : Z -> V -> V) (name : string) (value : Z)
    (fv : FlagSet * V) : FlagSet * V :=
  (Var (mkFlag name false (fun s =>
          match strconv.ParseUint s with
          | inr n => inr (p n)
          | inl e => inl e
          end)) (fst fv),
   p value (snd fv)).

Definition IntVar (p : Z -> V -> V) (name : string) (value : Z)
    (fv : FlagSet * V) : FlagSet * V :=
  (Var (mkFlag name false (fun s =>
          match strconv.ParseInt s with
          | inr n => inr (p n)
          | inl e => inl e
          end)) (fst fv),
   p value (snd fv)).

(** The shape of one argument, as [parseOne] takes it apart. *)
Inductive shape :=
  | NotAFlag                                   (* len(s) < 2 || s[0] != '-' *)
  | Terminator                                 (* -- *)
  | BadSyntax
  | IsFlag (name : string) (value : option string).

(** The name up to the first [=], and what follows it. *)
Fixpoint cut (s : string) : string * option string :=
  match s with
  | EmptyString => (EmptyString, None)
  | String c s' =>
      if (c =? "=")%char then (EmptyString, Some s')
      else (String c (fst (cut s')), snd (cut s'))
  end.

(** [name] is not empty; an [=] cannot be its first character. *)
Definition split (name : string) : shape :=
  match name with
  | EmptyString => BadSyntax
  | String c s' =>
      if (c =? "-")%char || (c =? "=")%char then BadSyntax
      else IsFlag (String c (fst (cut s'))) (snd (cut s'))
  end.

Definition syntax (s : string) : shape :=
  match s with
  | String "-" (String c s') =>
      if (c =? "-")%char then
        match s' with
        | EmptyString => Terminator
        | _ => split s'
        end
      else split (String c s')
  | _ => NotAFlag
  end.

(** The result of [parseOne]: no flag seen and no error, an error, or
    a flag seen, with the store and the arguments that remain. *)
Inductive step :=
  | Done
  | Failed (err : error)
  | Seen (actual : gset string) (v : V) (rest : list string).

Definition parseOne (formal : gmap string Flag) (args : list string)
    (actual : gset string) (v : V) : step :=
  match args with
  | [] => Done
  | s :: rest =>
      match syntax s with
      | NotAFlag | Terminator => Done
      | BadSyntax => Failed (BadFlagSyntax s)
      | IsFlag name value =>
          match formal !! name with
          | None =>
              if String.eqb name "help" || String.eqb name "h" then Failed ErrHelp
              else Failed (FlagNotDefined name)
          | Some fl =>
              if IsBoolFlag fl then
                match Set_ fl (default "true" value) with
                | inl _ => Failed (InvalidBooleanValue (default "true" value) name)
                | inr w => Seen ({[name]} ∪ actual) (w v) rest
                end
              else
                match value, rest with
                | None, [] => Failed (FlagNeedsArgument name)
                | None, value :: rest' =>
                    match Set_ fl value with
                    | inl e => Failed (InvalidValue value name e)
                    | inr w => Seen ({[name]} ∪ actual) (w v) rest'
                    end
                | Some value, _ =>
                    match Set_ fl value with
                    | inl e => Failed (InvalidValue value name e)
                    | inr w => Seen ({[name]} ∪ actual) (w v) rest
                    end
                end
          end
      end
  end.

(** The loop of [Parse]; every flag seen takes an argument away, so
    [length args] rounds are enough ([parse_fuel] below). *)
Fixpoint loop (n : nat) (formal : gmap string Flag) (args : list string)
    (actual : gset string) (v : V) : gset string * V * option error :=
  match n with
  | O => (actual, v, None)
  | S n' =>
      match parseOne formal args actual v with
      | Done => (actual, v, None)
      | Failed err => (actual, v, Some err)
      | Seen actual' v' rest => loop n' formal rest actual' v'
      end
  end.

Definition parse (formal : gmap string Flag) (args : list string)
    (actual : gset string) (v : V) : gset string * V * option error :=
  loop (List.length args) formal args actual v.

(** [f.usage()] *)
Definition usage (f : FlagSet) : M unit :=
  match Usage f with
  | None => os.Stderr DefaultUsage
  | Some u => u
  end.

(** [f.Parse(arguments)].  An error is printed by [failf], which then
    calls [f.usage()]; a request for help with no such flag defined
    only calls [f.usage()]. *)
Definition Parse (f : FlagSet) (arguments : list string) (v : V)
    : M (FlagSet * V * option error) :=
  match parse (formal f) arguments (actual f) v with
  | (actual', v', None) =>
      ret (mkFlagSet (name f) (errorHandling f) (Usage f) (formal f) actual', v', None)
  | (actual', v', Some err) =>
      (match err with
       | ErrHelp => usage f
       | _ => os.Stderr (ErrorText err) ;;; usage f
       end) ;;;
      match errorHandling f with
      | ContinueOnError =>
          ret (mkFlagSet (name f) (errorHandling f) (Usage f) (formal f) actual',
               v', Some err)
      | ExitOnError => os.Exit 2
      | PanicOnError => panic "flag: parse error"
      end
  end.

(** [f.Visit(fn)] visits the flags that have been set, in
    lexicographical order of their names. *)
Definition sortFlags (names : gset string) : list string :=
  merge_sort (fun a b => Is_true (String.leb a b)) (elements names).

Definition Visit {A} (f : FlagSet) (fn : string -> A -> A) (a : A) : A :=
  foldl (fun a name => fn name a) a (sortFlags (actual f)).

End FlagSet.
Arguments Flag : clear implicits.
Arguments FlagSet : clear implicits.
Arguments step : clear implicits.

End flag.

(** ** main.go: [usage], [printAndDie] and [Config.Init] *)

(** [usage] will print out the flag options for the server. *)
Definition usage : M unit :=
  os.Stdout (Literal usageStr) ;;; os.Exit 0.

Definition printAndDie {A} (msg : message) (showUsage : bool) : M A :=
  os.Stderr msg ;;;
  (if showUsage then os.Stderr (Literal usageStr) else ret tt) ;;;
  os.Exit 1.

(** The variables the flags of [Init] are bound to: the receiver [c] and
    the four locals. *)
Module vars.
Record t := mk {
  c : Config;
  showHelp : bool;
  configFile : string;
  port : Z;                      (* uint *)
  headauth : string
}.
Definition set_c (f : Config -> Config) (v : t) : t :=
  mk (f (c v)) (showHelp v) (configFile v) (port v) (headauth v).
Definition set_showHelp (x : bool) (v : t) : t :=
  mk (c v) x (configFile v) (port v) (headauth v).
Definition set_configFile (x : string) (v : t) : t :=
  mk (c v) (showHelp v) x (port v) (headauth v).
Definition set_port (x : Z) (v : t) : t :=
  mk (c v) (showHelp v) (configFile v) x (headauth v).
Definition set_headauth (x : string) (v : t) : t :=
  mk (c v) (showHelp v) (configFile v) (port v) x.
End vars.

(** Lines 68 to 86: the flags of [Init], in the order they are defined. *)
Definition Init_flags (fv : flag.FlagSet vars.t * vars.t) : flag.FlagSet vars.t * vars.t :=
  let fv := flag.BoolVar vars.set_showHelp "h" false fv in
  let fv := flag.BoolVar vars.set_showHelp "help" false fv in
  let fv := flag.StringVar vars.set_configFile "c" "" fv in
  let fv := flag.StringVar vars.set_configFile "config" "" fv in
  let fv := flag.StringVar (fun x => vars.set_c (set_NatsURL x)) "n" "" fv in
  let fv := flag.StringVar (fun x => vars.set_c (set_NatsURL x)) "nats" "" fv in
  let fv := flag.UintVar vars.set_port "p" 0 fv in
  let fv := flag.UintVar vars.set_port "port" 0 fv in
  let fv := flag.StringVar (fun x => vars.set_c (set_WSPath x)) "w" "" fv in
  let fv := flag.StringVar (fun x => vars.set_c (set_WSPath x)) "wspath" "" fv in
  let fv := flag.StringVar (fun x => vars.set_c (set_APIPath x)) "a" "" fv in
  let fv := flag.StringVar (fun x => vars.set_c (set_APIPath x)) "apipath" "" fv in
  let fv := flag.StringVar vars.set_headauth "u" "" fv in
  let fv := flag.StringVar vars.set_headauth "headauth" "" fv in
  let fv := flag.BoolVar (fun x => vars.set_c (set_TLS x)) "tls" false fv in
  let fv := flag.StringVar (fun x => vars.set_c (set_TLSCert x)) "tlscert" "" fv in
  let fv := flag.StringVar (fun x => vars.set_c (set_TLSKey x)) "tlskey" "" fv in
  let fv := flag.IntVar (fun x => vars.set_c (set_RequestTimeout x)) "r" 0 fv in
  flag.IntVar (fun x => vars.set_c (set_RequestTimeout x)) "reqtimeout" 0 fv.

(** Lines 100 to 124, entered when [configFile != ""].  The error is the
    one [Init] returns from inside the block. *)
Definition Init_file (fs : flag.FlagSet vars.t) (args : list string) (v : vars.t)
    : M (flag.FlagSet vars.t * vars.t * option error) :=
  r <- ioutil.ReadFile (vars.configFile v) ;;
  match r with
  | inl err =>
      if negb (os.IsNotExist err) then ret (fs, v, Some (ErrorLoadingConfigFile err))
      else
        let v := vars.set_c SetDefault v in
        match json.MarshalIndent (vars.c v) with
        | inl err => ret (fs, v, Some (ErrorEncodingConfig err))
        | inr fout =>
            ioutil.WriteFile (vars.configFile v) fout ;;;
            ret (fs, v, None)
        end
  | inr fin =>
      let r := json.Unmarshal fin (vars.c v) in
      let v := vars.set_c (fun _ => fst r) v in
      match snd r with
      | Some err => ret (fs, v, Some (ErrorParsingConfigFile err))
      | None =>
          (* Overwrite configFile options with command line options *)
          r <- flag.Parse fs args v ;;
          ret (fst (fst r), snd (fst r), None)
      end
  end.

(** The function [Init] hands to [fs.Visit], on the name of the flag. *)
Definition Init_visit (headauth : string) (name : string) (c : Config) : Config :=
  if String.eqb name "u" || String.eqb name "headauth" then
    if String.eqb headauth "" then set_HeaderAuth None c
    else set_HeaderAuth (Some headauth) c
  else c.

(** Lines 126 to 146. *)
Definition Init_finish (fs : flag.FlagSet vars.t) (v : vars.t) : Config :=
  let c := if 0 <? vars.port v then set_Port (vars.port v mod 2 ^ 16) (vars.c v)
           else vars.c v in
  let c := flag.Visit fs (Init_visit (vars.headauth v)) c in
  (* Any value not set, set it now *)
  SetDefault c.

(** [Init] takes a path to a json encoded file and loads the config.  If
    no file exists, a new file with default settings is created.  The
    result is the receiver as [Init] leaves it and the error returned. *)
Definition Init (c : Config) (fs : flag.FlagSet vars.t) (args : list string)
    : M (Config * option error) :=
  let fv := Init_flags (fs, vars.mk c false "" 0 "") in
  r <- flag.Parse (fst fv) args (snd fv) ;;
  let fs := fst (fst r) in
  let v := snd (fst r) in
  match snd r with
  | Some err => printAndDie (ErrorParsingArguments err) true
  | None =>
      if 2 ^ 16 <=? vars.port v then printAndDie (InvalidPort (vars.port v)) true
      else
        (if vars.showHelp v then usage else ret tt) ;;;
        r <- (if negb (String.eqb (vars.configFile v) "") then Init_file fs args v
              else ret (fs, v, None)) ;;
        match snd r with
        | Some err => ret (vars.c (snd (fst r)), Some err)
        | None => ret (Init_finish (fst (fst r)) (snd (fst r)), None)
        end
  end.

(** ** main.go: [main] *)

(** What the surroundings of the process do during a run: the result of
    [serv.Start()], when a signal arrives on [stop] and when and what the
    service sends on [StopChannel()] (ns after the first select is
    entered; [None]: never), how long [serv.Stop(nil)] takes ([None]: it
    does not return), and which case a select takes when two are ready at
    the same time. *)
Record Environment := mkEnvironment {
  Start_returns : option error;
  signal_after : option Z;
  StopChannel_after : option Z;
  StopChannel_sends : option error;
  Stop_takes : option Z;
  tie : bool
}.

(** The calling goroutine waits forever. *)
Inductive blocked := Blocked.

Definition call_ (x : call) : M unit :=
  fun p => (mkProcess (files p) (readonly p) (stdout p) (stderr p) (calls p ++ [x]) (clock p),
            Return tt).

Definition wait (d : Z) : M unit :=
  fun p => (mkProcess (files p) (readonly p) (stdout p) (stderr p) (calls p) (clock p + d),
            Return tt).

(** A select statement with two cases, each ready after a given time: the
    case that is ready first is taken, and either when both are ready at
    once.  With no case ever ready the goroutine stays blocked. *)
Definition select {A} (a b : option Z * M A) (tie : bool) : M (A + blocked) :=
  match fst a, fst b with
  | None, None => ret (inr Blocked)
  | Some ta, None => wait ta ;;; x <- snd a ;; ret (inl x)
  | None, Some tb => wait tb ;;; x <- snd b ;; ret (inl x)
  | Some ta, Some tb =>
      if ta <? tb then wait ta ;;; x <- snd a ;; ret (inl x)
      else if tb <? ta then wait tb ;;; x <- snd b ;; ret (inl x)
      else wait ta ;;; x <- (if tie then snd a else snd b) ;; ret (inl x)
  end.

Definition wrap64 (z : Z) : Z := (z + 2 ^ 63) mod 2 ^ 64 - 2 ^ 63.

(** Lines 200 to 211: the stop of the service, raced against
    [stopTimeout]. *)
Definition main_shutdown (env : Environment) : M (unit + blocked) :=
  (* go func() { defer close(done); serv.Stop(nil) }() *)
  call_ Stop ;;;
  select (Stop_takes env, ret tt)
         (Some stopTimeout, panic "Shutdown timed out")
         (tie env).

(** The flag set of [main]: [flag.NewFlagSet("resgate", flag.ExitOnError)]
    with [fs.Usage = usage]. *)
Definition main_fs : flag.FlagSet vars.t :=
  flag.set_Usage usage (flag.NewFlagSet "resgate" flag.ExitOnError).

(** Lines 174 to 211: the service is built from the configuration and
    started, then [main] waits for a signal or for the service to give
    up. *)
Definition main_serve (env : Environment) (cfg : Config) : M (unit + blocked) :=
  call_ (NewStdLogger (Debug cfg) (Debug cfg)) ;;;
  call_ (NewService (NatsURL cfg) (wrap64 (RequestTimeout cfg * 1000000000))
           (server_Config cfg)) ;;;
  call_ SetLogger ;;;
  call_ Start ;;;
  match Start_returns env with
  | Some err => printAndDie (ErrorText err) false
  | None =>
      r <- select (signal_after env, ret tt)
                  (StopChannel_after env,
                   match StopChannel_sends env with
                   | Some err => printAndDie (ErrorText err) false
                   | None => ret tt
                   end)
                  (tie env) ;;
      match r with
      | inr Blocked => ret (inr Blocked)
      | inl _ => main_shutdown env
      end
  end.

Definition main (args : list string) (env : Environment) : M (unit + blocked) :=
  r <- Init zeroConfig main_fs args ;;
  match snd r with
  | Some err => printAndDie (ErrorText err) false
  | None => main_serve env (fst r)
  end.

(** A process at its start: the files it finds, nothing printed, no time
    spent. *)
Definition boot (files : gmap string node) (readonly : gset string) : Process :=
  mkProcess files readonly [] [] [] 0.

(** ** What the command line amounts to

    The definitions from here on are not taken from the sources: they are
    the notions the proofs and the statements need.

    The values the flags of an argument list leave in the variables do not
    depend on what the variables held before: an argument list amounts to
    a set of overrides, one optional value per variable, and the names of
    the flags it sets ([amounts_exists]).  This is what makes the second
    [fs.Parse(args)] of [Init] put the values of the command line back over
    the ones of the file. *)
Module overrides.
Record t := mk {
  o_NatsURL : option string;
  o_RequestTimeout : option Z;
  o_WSPath : option string;
  o_APIPath : option string;
  o_TLS : option bool;
  o_TLSCert : option string;
  o_TLSKey : option string;
  o_showHelp : option bool;
  o_configFile : option string;
  o_port : option Z;
  o_headauth : option string
}.

Definition none : t := mk None None None None None None None None None None None.

(** The value a variable holds once an override is applied. *)
Definition over {A} (o : option A) (x : A) : A :=
  match o with Some y => y | None => x end.

Definition apply (o : t) (v : vars.t) : vars.t :=
  vars.mk
    (mkConfig (over (o_NatsURL o) (NatsURL (vars.c v)))
              (over (o_RequestTimeout o) (RequestTimeout (vars.c v)))
              (Debug (vars.c v))
              (server.mkConfig (Port (vars.c v))
                 (over (o_WSPath o) (WSPath (vars.c v)))
                 (over (o_APIPath o) (APIPath (vars.c v)))
                 (HeaderAuth (vars.c v))
                 (over (o_TLS o) (TLS (vars.c v)))
                 (over (o_TLSCert o) (TLSCert (vars.c v)))
                 (over (o_TLSKey o) (TLSKey (vars.c v)))))
    (over (o_showHelp o) (vars.showHelp v))
    (over (o_configFile o) (vars.configFile v))
    (over (o_port o) (vars.port v))
    (over (o_headauth o) (vars.headauth v)).

(** The later of two overrides of one variable. *)
Definition later {A} (o2 o1 : option A) : option A :=
  match o2 with Some _ => o2 | None => o1 end.

(** [o1], then [o2]. *)
Definition seq (o1 o2 : t) : t :=
  mk (later (o_NatsURL o2) (o_NatsURL o1))
     (later (o_RequestTimeout o2) (o_RequestTimeout o1))
     (later (o_WSPath o2) (o_WSPath o1))
     (later (o_APIPath o2) (o_APIPath o1))
     (later (o_TLS o2) (o_TLS o1))
     (later (o_TLSCert o2) (o_TLSCert o1))
     (later (o_TLSKey o2) (o_TLSKey o1))
     (later (o_showHelp o2) (o_showHelp o1))
     (later (o_configFile o2) (o_configFile o1))
     (later (o_port o2) (o_port o1))
     (later (o_headauth o2) (o_headauth o1)).

(** The flags that set each variable. *)
Definition linked (names : gset string) (o : t) : Prop :=
  (is_Some (o_NatsURL o) <-> "n" ∈ names \/ "nats" ∈ names) /\
  (is_Some (o_RequestTimeout o) <-> "r" ∈ names \/ "reqtimeout" ∈ names) /\
  (is_Some (o_WSPath o) <-> "w" ∈ names \/ "wspath" ∈ names) /\
  (is_Some (o_APIPath o) <-> "a" ∈ names \/ "apipath" ∈ names) /\
  (is_Some (o_TLS o) <-> "tls" ∈ names) /\
  (is_Some (o_TLSCert o) <-> "tlscert" ∈ names) /\
  (is_Some (o_TLSKey o) <-> "tlskey" ∈ names) /\
  (is_Some (o_showHelp o) <-> "h" ∈ names \/ "help" ∈ names) /\
  (is_Some (o_configFile o) <-> "c" ∈ names \/ "config" ∈ names) /\
  (is_Some (o_port o) <-> "p" ∈ names \/ "port" ∈ names) /\
  (is_Some (o_headauth o) <-> "u" ∈ names \/ "headauth" ∈ names).
End overrides.

(** The variables of [Init] when [main] calls it, once the flags are
    defined: every one at its zero value. *)
Definition vars0 : vars.t := vars.mk zeroConfig false "" 0 "".

(** The flags [Init] defines. *)
Definition Init_formal : gmap string (flag.Flag vars.t) :=
  flag.formal (fst (Init_flags (main_fs, vars0))).

(** The first pass over the arguments in [main]: the names of the flags
    that are set, the variables as the flags leave them, and the error. *)
Definition commandLine (args : list string) : gset string * vars.t * option error :=
  flag.parse Init_formal args ∅ vars0.

(** [args] amounts to the overrides [o] by the flags [names], and ends in
    [e]. *)
Definition amounts (args : list string) (o : overrides.t) (names : gset string)
    (e : option error) : Prop :=
  overrides.linked names o /\
  forall actual v,
    flag.parse Init_formal args actual v = (names ∪ actual, overrides.apply o v, e).

(** The header authentication a command line asks for. *)
Definition asked (headauth : string) : option string :=
  if String.eqb headauth "" then None else Some headauth.

(** [Init_finish] on the names of the flags that are set
    ([Init_finish_finish]). *)
Definition finish (names : gset string) (v : vars.t) : Config :=
  let c := if 0 <? vars.port v then set_Port (vars.port v mod 2 ^ 16) (vars.c v)
           else vars.c v in
  let c := if bool_decide ("u" ∈ names \/ "headauth" ∈ names)
           then set_HeaderAuth (asked (vars.headauth v)) c else c in
  SetDefault c.

(** [Init] as [main] calls it, unfolded on what the argument list amounts
    to: the two passes over the arguments are applications of [o].  It is
    equal to [Init] ([Init_resolve]) and easier to take cases on. *)
Definition resolve (o : overrides.t) (names : gset string) (e : option error)
    (p : Process) : Process * outcome (Config * option error) :=
  let v := overrides.apply o vars0 in
  match e with
  | Some ErrHelp => (usage ;;; os.Exit 2) p
  | Some err => (os.Stderr (ErrorText err) ;;; usage ;;; os.Exit 2) p
  | None =>
      if 2 ^ 16 <=? vars.port v then printAndDie (InvalidPort (vars.port v)) true p
      else if vars.showHelp v then (usage ;;; ret (vars.c v, None)) p
      else if String.eqb (vars.configFile v) "" then (p, Return (finish names v, None))
      else
        match files p !! vars.configFile v with
        | None =>
            match json.MarshalIndent (SetDefault (vars.c v)) with
            | inl err =>
                (p, Return (SetDefault (vars.c v), Some (ErrorEncodingConfig err)))
            | inr fout =>
                (fst (ioutil.WriteFile (vars.configFile v) fout p),
                 Return (finish names (vars.set_c SetDefault v), None))
            end
        | Some Unreadable =>
            (p, Return (vars.c v,
                        Some (ErrorLoadingConfigFile
                                (PathError "open" (vars.configFile v)))))
        | Some (Contents data) =>
            match snd (json.Unmarshal data (vars.c v)) with
            | Some err =>
                (p, Return (fst (json.Unmarshal data (vars.c v)),
                            Some (ErrorParsingConfigFile err)))
            | None =>
                (p, Return (finish names
                              (overrides.apply o
                                 (vars.set_c (fun _ => fst (json.Unmarshal data (vars.c v))) v)),
                            None))
            end
        end
  end.

(** ** Further notions of the statements and proofs *)

(** A write that is one application of overrides, by the flags [names]. *)
Definition overriding (names : gset string) (w : vars.t -> vars.t) : Prop :=
  exists o, overrides.linked names o /\ forall v, w v = overrides.apply o v.

(** The configuration [finish] starts from the defaults on: the port of
    the command line and the header authentication are in place. *)
Definition layered (names : gset string) (v : vars.t) : Config :=
  let c := if 0 <? vars.port v then set_Port (vars.port v mod 2 ^ 16) (vars.c v)
           else vars.c v in
  if bool_decide ("u" ∈ names \/ "headauth" ∈ names)
  then set_HeaderAuth (asked (vars.headauth v)) c else c.

(** The variables [Init] goes on with after the block of the config file,
    from the variables [v] that the first pass leaves. *)
Inductive layers (o : overrides.t) (p : Process) (v : vars.t) : vars.t -> Prop :=
  | layers_no_path :
      vars.configFile v = "" ->
      layers o p v v
  | layers_bootstrap :
      vars.configFile v <> "" ->
      files p !! vars.configFile v = None ->
      layers o p v (vars.set_c SetDefault v)
  | layers_file data cf :
      vars.configFile v <> "" ->
      files p !! vars.configFile v = Some (Contents data) ->
      json.Unmarshal data (vars.c v) = (cf, None) ->
      layers o p v (overrides.apply o (vars.set_c (fun _ => cf) v)).

(** The configuration the file at [path] defines: what it adds to the zero
    value; the zero value with no path and with no file. *)
Definition fromFile (p : Process) (path : string) : Config :=
  if String.eqb path "" then zeroConfig
  else match files p !! path with
       | Some (Contents data) => fst (json.Unmarshal data zeroConfig)
       | _ => zeroConfig
       end.

(** The member of an object under a name. *)
Definition member (key : string) (data : option json.document) : option json.value :=
  match data with
  | Some (json.Object ms) =>
      match List.find (fun kv => String.eqb (fst kv) key) ms with
      | Some kv => Some (snd kv)
      | None => None
      end
  | _ => None
  end.

(** The process after a document is put at [path]. *)
Definition written (path : string) (doc : json.document) (p : Process) : Process :=
  mkProcess (<[path := Contents (Some doc)]> (files p)) (readonly p)
    (stdout p) (stderr p) (calls p) (clock p).

(** The bootstrap file of the variables [v]. *)
Definition bootstrap (v : vars.t) : json.document :=
  json.encode (SetDefault (vars.c v)).

(** The overrides of a command line that gives the config file only, and
    of one that gives the port only. *)
Definition only_config (path : string) : overrides.t :=
  overrides.mk None None None None None None None None (Some path) None None.



(** The stop of the service does not return within [stopTimeout]. *)
Definition Stop_overruns (env : Environment) : Prop :=
  match Stop_takes env with
  | None => True
  | Some d => stopTimeout < d
  end.

(** The service sends on its channel before a signal is taken. *)
Definition StopChannel_first (env : Environment) : Prop :=
  match StopChannel_after env, signal_after env with
  | Some t, None => True
  | Some t, Some s => t < s \/ (t = s /\ tie env = false)
  | None, _ => False
  end.

(** The environment in which the signal arrives when the service would
    have sent, and the other way round. *)
Definition swapped (env : Environment) : Environment :=
  mkEnvironment (Start_returns env) (StopChannel_after env) (signal_after env)
    (StopChannel_sends env) (Stop_takes env) (tie env).

(** The process once [main_serve] has made its calls and waits. *)
Definition served (cfg : Config) (p : Process) : Process :=
  mkProcess (files p) (readonly p) (stdout p) (stderr p)
    ((((calls p ++ [NewStdLogger (Debug cfg) (Debug cfg)]) ++
       [NewService (NatsURL cfg) (wrap64 (RequestTimeout cfg * 1000000000))
          (server_Config cfg)]) ++ [SetLogger]) ++ [Start])
    (clock p).

(** ** Notions of the further properties *)

(** What is left of a receiver once the flags are defined: the fields no
    flag is bound to. *)
Definition kept (c : Config) : Config :=
  mkConfig "" 0 (Debug c) (server.mkConfig (Port c) "" "" (HeaderAuth c) false "" "").

(** A projection of [Config] that [json.store] treats on its own: what is
    stored in it does not depend on the other fields. *)
Definition separate {A} (proj : Config -> A) : Prop :=
  forall f x c1 c2, proj c1 = proj c2 ->
    match json.store f x c1, json.store f x c2 with
    | inr a, inr b => proj a = proj b
    | inl _, inl _ => True
    | _, _ => False
    end.

(** A write that keeps the request timeout within [int]. *)
Definition keeps_int (names : gset string) (w : vars.t -> vars.t) : Prop :=
  forall v, - 2 ^ 63 <= RequestTimeout (vars.c v) < 2 ^ 63 ->
            - 2 ^ 63 <= RequestTimeout (vars.c (w v)) < 2 ^ 63.

(** The short and the long name of the flags that take a string. *)
Definition short_long : list (string * string) :=
  [ ("n", "nats"); ("w", "wspath"); ("a", "apipath"); ("c", "config"); ("u", "headauth") ].

(** The process [p] after [d] ns, with the calls [l] made and [m] printed
    on standard error. *)
Definition later_on (p : Process) (l : list call) (m : list message) (d : Z) : Process :=
  mkProcess (files p) (readonly p) (stdout p) (stderr p ++ m) (calls p ++ l) (clock p + d).

(** A member of a config file whose value the field of [Config] it names
    cannot take: [natsUrl] that is not a string, [requestTimeout] that is
    not an integer of 64 bits, [debug] that is not a boolean.  [null] is
    taken by all three. *)
Definition mistyped (key : string) (x : json.value) : bool :=
  if String.eqb key "natsUrl" then
    match x with json.Null | json.Str _ => false | _ => true end
  else if String.eqb key "requestTimeout" then
    match x with
    | json.Null => false
    | json.Integer n => negb ((- 2 ^ 63 <=? n) && (n <? 2 ^ 63))
    | _ => true
    end
  else if String.eqb key "debug" then
    match x with json.Null | json.Bool _ => false | _ => true end
  else false.

(** The value [Init] resolves for a field of [main.go]: the one of the
    command line when a flag of the field is given, the one of the file
    otherwise; the default when that value is the zero value. *)
Definition precedence {A} (given : bool) (cli file : A) (zero : A -> bool) (dflt : A) : A :=
  let x := if given then cli else file in
  if zero x then dflt else x.

(** ** Notions of the amended claims *)

(** The two names of the port flag. *)
Definition is_port (name : string) : bool :=
  String.eqb name "p" || String.eqb name "port".


(** A write that keeps the port within [uint]. *)
Definition keeps_uint (names : gset string) (w : vars.t -> vars.t) : Prop :=
  forall v, 0 <= vars.port v < 2 ^ 64 -> 0 <= vars.port (w v) < 2 ^ 64.



(** * Facts about the model *)

Ltac names_union := rewrite ?elem_of_union, ?elem_of_empty; tauto.

Section flag_facts.
Context {V : Type}.
Implicit Types (formal : gmap string (flag.Flag V)) (args : list string).

(** What [parseOne] does is settled by the arguments alone. *)
Lemma parseOne_cases formal args :
  (forall a v, flag.parseOne formal args a v = flag.Done) \/
  (exists e, forall a v, flag.parseOne formal args a v = flag.Failed e) \/
  (exists name fl s w rest,
      formal !! name = Some fl /\ flag.Set_ fl s = inr w /\
      (List.length rest < List.length args)%nat /\
      forall a v, flag.parseOne formal args a v = flag.Seen ({[name]} ∪ a) (w v) rest).
Proof.
  destruct args as [|s rest]; [by left|].
  unfold flag.parseOne.
  destruct (flag.syntax s) as [| | |name value]; [by left | by left | right; left; eauto |].
  destruct (formal !! name) as [fl|] eqn:Hfl; cycle 1.
  { right; left. destruct (String.eqb name "help" || String.eqb name "h"); eauto. }
  destruct (flag.IsBoolFlag fl).
  - destruct (flag.Set_ fl (default "true" value)) as [e|w] eqn:Hset.
    + right; left; eauto.
    + right; right. exists name, fl, (default "true" value), w, rest.
      repeat split; auto; simpl; lia.
  - destruct value as [value|].
    + destruct (flag.Set_ fl value) as [e|w] eqn:Hset.
      * right; left; eauto.
      * right; right. exists name, fl, value, w, rest. repeat split; auto; simpl; lia.
    + destruct rest as [|value rest'].
      * right; left; eauto.
      * destruct (flag.Set_ fl value) as [e|w] eqn:Hset.
        -- right; left; eauto.
        -- right; right. exists name, fl, value, w, rest'. repeat split; auto; simpl; lia.
Qed.

(** [length args] rounds of the loop are as good as any larger number. *)
Lemma loop_fuel formal n m args a v :
  (List.length args <= n)%nat -> (List.length args <= m)%nat ->
  flag.loop n formal args a v = flag.loop m formal args a v.
Proof.
  revert m args a v. induction n as [|n IH]; intros m args a v Hn Hm.
  - destruct args; [|simpl in Hn; lia]. destruct m; reflexivity.
  - destruct m as [|m].
    + destruct args; [|simpl in Hm; lia]. reflexivity.
    + cbn [flag.loop]. destruct (parseOne_cases formal args) as [H|[[e H]|(nm & fl & s & w & rest & _ & _ & Hlen & H)]];
        rewrite H; try reflexivity.
      apply IH; lia.
Qed.


Lemma parse_cons_seen formal s args name w rest a v :
  (forall a v, flag.parseOne formal (s :: args) a v = flag.Seen ({[name]} ∪ a) (w v) rest) ->
  (List.length rest <= List.length args)%nat ->
  flag.parse formal (s :: args) a v = flag.parse formal rest ({[name]} ∪ a) (w v).
Proof.
  intros H Hlen. unfold flag.parse. cbn [List.length flag.loop]. rewrite H. apply loop_fuel; lia.
Qed.

(** The loop amounts to one write and one set of names, whatever the
    variables hold. *)
Lemma loop_uniform (P : gset string -> (V -> V) -> Prop) formal :
  P ∅ (fun v => v) ->
  (forall n1 w1 n2 w2, P n1 w1 -> P n2 w2 -> P (n2 ∪ n1) (fun v => w2 (w1 v))) ->
  (forall name fl s w, formal !! name = Some fl -> flag.Set_ fl s = inr w -> P {[name]} w) ->
  forall n args, exists names W e,
    P names W /\
    forall a v, flag.loop n formal args a v = (names ∪ a, W v, e).
Proof.
  intros Hid Hcomp Hflag. induction n as [|n IH]; intros args.
  - exists ∅, (fun v => v), None. split; [done|]. intros a v. simpl. by rewrite (left_id_L ∅ (∪) a).
  - destruct (parseOne_cases formal args) as [H|[[e H]|(nm & fl & s & w & rest & Hfl & Hset & Hlen & H)]].
    + exists ∅, (fun v => v), None. split; [done|]. intros a v. cbn [flag.loop]. by rewrite H, (left_id_L ∅ (∪) a).
    + exists ∅, (fun v => v), (Some e). split; [done|]. intros a v. cbn [flag.loop]. by rewrite H, (left_id_L ∅ (∪) a).
    + destruct (IH rest) as (names & W & e & HP & HW).
      exists (names ∪ {[nm]}), (fun v => W (w v)), e. split.
      * apply Hcomp; eauto.
      * intros a v. cbn [flag.loop]. rewrite H, HW. by rewrite (assoc_L (∪)).
Qed.
End flag_facts.

Lemma Init_formal_eq :
  Init_formal =
  <["reqtimeout" := flag.mkFlag "reqtimeout" false (fun s => match strconv.ParseInt s with inr n => inr (vars.set_c (set_RequestTimeout n)) | inl e => inl e end)]> (
  <["r" := flag.mkFlag "r" false (fun s => match strconv.ParseInt s with inr n => inr (vars.set_c (set_RequestTimeout n)) | inl e => inl e end)]> (
  <["tlskey" := flag.mkFlag "tlskey" false (fun s => inr (vars.set_c (set_TLSKey s)))]> (
  <["tlscert" := flag.mkFlag "tlscert" false (fun s => inr (vars.set_c (set_TLSCert s)))]> (
  <["tls" := flag.mkFlag "tls" true (fun s => match strconv.ParseBool s with Some b => inr (vars.set_c (set_TLS b)) | None => inl ErrSyntax end)]> (
  <["headauth" := flag.mkFlag "headauth" false (fun s => inr (vars.set_headauth s))]> (
  <["u" := flag.mkFlag "u" false (fun s => inr (vars.set_headauth s))]> (
  <["apipath" := flag.mkFlag "apipath" false (fun s => inr (vars.set_c (set_APIPath s)))]> (
  <["a" := flag.mkFlag "a" false (fun s => inr (vars.set_c (set_APIPath s)))]> (
  <["wspath" := flag.mkFlag "wspath" false (fun s => inr (vars.set_c (set_WSPath s)))]> (
  <["w" := flag.mkFlag "w" false (fun s => inr (vars.set_c (set_WSPath s)))]> (
  <["port" := flag.mkFlag "port" false (fun s => match strconv.ParseUint s with inr n => inr (vars.set_port n) | inl e => inl e end)]> (
  <["p" := flag.mkFlag "p" false (fun s => match strconv.ParseUint s with inr n => inr (vars.set_port n) | inl e => inl e end)]> (
  <["nats" := flag.mkFlag "nats" false (fun s => inr (vars.set_c (set_NatsURL s)))]> (
  <["n" := flag.mkFlag "n" false (fun s => inr (vars.set_c (set_NatsURL s)))]> (
  <["config" := flag.mkFlag "config" false (fun s => inr (vars.set_configFile s))]> (
  <["c" := flag.mkFlag "c" false (fun s => inr (vars.set_configFile s))]> (
  <["help" := flag.mkFlag "help" true (fun s => match strconv.ParseBool s with Some b => inr (vars.set_showHelp b) | None => inl ErrSyntax end)]> (
  <["h" := flag.mkFlag "h" true (fun s => match strconv.ParseBool s with Some b => inr (vars.set_showHelp b) | None => inl ErrSyntax end)]> ∅)))))))))))))))))).
Proof. reflexivity. Qed.

Lemma over_later {A} (a b : option A) x :
  overrides.over (overrides.later a b) x = overrides.over a (overrides.over b x).
Proof. by destruct a, b. Qed.

Lemma is_Some_later {A} (a b : option A) :
  is_Some (overrides.later a b) <-> is_Some a \/ is_Some b.
Proof.
  destruct a, b; simpl; split; eauto; intros [H|H]; eauto; by destruct H.
Qed.

Lemma apply_none v : overrides.apply overrides.none v = v.
Proof. by destruct v as [[? ? ? []] ? ? ? ?]. Qed.

Lemma apply_seq o1 o2 v :
  overrides.apply (overrides.seq o1 o2) v = overrides.apply o2 (overrides.apply o1 v).
Proof.
  unfold overrides.apply, overrides.seq; simpl. by rewrite !over_later.
Qed.

Lemma linked_none : overrides.linked ∅ overrides.none.
Proof.
  unfold overrides.linked, overrides.none; simpl.
  repeat split; intros H; try (by destruct H); rewrite !elem_of_empty in H; tauto.
Qed.

Lemma linked_seq n1 o1 n2 o2 :
  overrides.linked n1 o1 -> overrides.linked n2 o2 ->
  overrides.linked (n2 ∪ n1) (overrides.seq o1 o2).
Proof.
  unfold overrides.linked, overrides.seq; simpl.
  rewrite !is_Some_later, !elem_of_union. tauto.
Qed.

Ltac one_override o :=
  exists o; split;
  [ unfold overrides.linked; simpl; rewrite ?elem_of_singleton;
    repeat split;
    try (intros [? ?]; discriminate);
    try (intros [?|?]; discriminate);
    try (intros ?; discriminate);
    eauto
  | intros [[? ? ? []] ? ? ? ?]; reflexivity ].

Lemma Init_formal_overriding name fl s w :
  Init_formal !! name = Some fl -> flag.Set_ fl s = inr w -> overriding {[name]} w.
Proof.
  rewrite Init_formal_eq. intros Hfl Hset.
  repeat (rewrite lookup_insert in Hfl; case_decide;
          [ subst name; injection Hfl as <-; cbn [flag.Set_] in Hset | ]);
    try (rewrite lookup_empty in Hfl; discriminate).
  all: try (destruct (strconv.ParseInt s) as [?|n]; [discriminate|]);
       try (destruct (strconv.ParseUint s) as [?|n]; [discriminate|]);
       try (destruct (strconv.ParseBool s) as [b|]; [|discriminate]);
       injection Hset as <-.
  - one_override (overrides.mk None (Some n) None None None None None None None None None).
  - one_override (overrides.mk None (Some n) None None None None None None None None None).
  - one_override (overrides.mk None None None None None None (Some s) None None None None).
  - one_override (overrides.mk None None None None None (Some s) None None None None None).
  - one_override (overrides.mk None None None None (Some b) None None None None None None).
  - one_override (overrides.mk None None None None None None None None None None (Some s)).
  - one_override (overrides.mk None None None None None None None None None None (Some s)).
  - one_override (overrides.mk None None None (Some s) None None None None None None None).
  - one_override (overrides.mk None None None (Some s) None None None None None None None).
  - one_override (overrides.mk None None (Some s) None None None None None None None None).
  - one_override (overrides.mk None None (Some s) None None None None None None None None).
  - one_override (overrides.mk None None None None None None None None None (Some n) None).
  - one_override (overrides.mk None None None None None None None None None (Some n) None).
  - one_override (overrides.mk (Some s) None None None None None None None None None None).
  - one_override (overrides.mk (Some s) None None None None None None None None None None).
  - one_override (overrides.mk None None None None None None None None (Some s) None None).
  - one_override (overrides.mk None None None None None None None None (Some s) None None).
  - one_override (overrides.mk None None None None None None None (Some b) None None None).
  - one_override (overrides.mk None None None None None None None (Some b) None None None).
Qed.

(** Every argument list amounts to some overrides. *)
Lemma amounts_exists args : exists o names e, amounts args o names e.
Proof.
  destruct (loop_uniform overriding Init_formal) with (n := List.length args) (args := args)
    as (names & W & e & (o & Hl & Ho) & HW).
  - exists overrides.none. split; [apply linked_none|]. intros v. by rewrite apply_none.
  - intros n1 w1 n2 w2 (o1 & Hl1 & H1) (o2 & Hl2 & H2).
    exists (overrides.seq o1 o2). split; [by apply linked_seq|].
    intros v. by rewrite apply_seq, H2, H1.
  - apply Init_formal_overriding.
  - exists o, names, e. split; [done|]. intros a v. unfold flag.parse. by rewrite HW, Ho.
Qed.

Lemma elem_of_sortFlags (names : gset string) x : x ∈ flag.sortFlags names <-> x ∈ names.
Proof.
  unfold flag.sortFlags. rewrite merge_sort_Permutation. apply elem_of_elements.
Qed.

Lemma set_HeaderAuth_twice x c : set_HeaderAuth x (set_HeaderAuth x c) = set_HeaderAuth x c.
Proof. reflexivity. Qed.

Lemma Init_visit_asked h name c :
  Init_visit h name c =
  if String.eqb name "u" || String.eqb name "headauth"
  then set_HeaderAuth (asked h) c else c.
Proof. unfold Init_visit, asked. by destruct (String.eqb h ""). Qed.

Lemma foldl_Init_visit h (l : list string) c :
  foldl (fun a name => Init_visit h name a) c l =
  if bool_decide ("u" ∈ l \/ "headauth" ∈ l) then set_HeaderAuth (asked h) c else c.
Proof.
  revert c. induction l as [|x l IH]; intros c.
  - cbn [foldl]. case_bool_decide as H; [|done]. destruct H as [H|H]; inversion H.
  - cbn [foldl]. rewrite IH, Init_visit_asked.
    destruct (String.eqb x "u") eqn:Hu; [apply String.eqb_eq in Hu|apply String.eqb_neq in Hu];
      [|destruct (String.eqb x "headauth") eqn:Hh;
         [apply String.eqb_eq in Hh|apply String.eqb_neq in Hh]]; cbn [orb].
    + subst x. rewrite set_HeaderAuth_twice.
      rewrite (bool_decide_eq_true_2 ("u" ∈ "u" :: l \/ _)); [|left; apply list_elem_of_here].
      by destruct (bool_decide _).
    + subst x. rewrite set_HeaderAuth_twice.
      rewrite (bool_decide_eq_true_2 ("u" ∈ "headauth" :: l \/ _));
        [|right; apply list_elem_of_here].
      by destruct (bool_decide _).
    + rewrite (bool_decide_ext ("u" ∈ x :: l \/ "headauth" ∈ x :: l)
                 ("u" ∈ l \/ "headauth" ∈ l)); [done|].
      rewrite !elem_of_cons.
      split; [intros [[E|?]|[E|?]]; try tauto; by symmetry in E | tauto].
Qed.

Lemma Visit_Init_visit (fs : flag.FlagSet vars.t) h c :
  flag.Visit fs (Init_visit h) c =
  if bool_decide ("u" ∈ flag.actual fs \/ "headauth" ∈ flag.actual fs)
  then set_HeaderAuth (asked h) c else c.
Proof.
  unfold flag.Visit. rewrite foldl_Init_visit.
  rewrite (bool_decide_ext _ ("u" ∈ flag.actual fs \/ "headauth" ∈ flag.actual fs)); [done|].
  by rewrite !elem_of_sortFlags.
Qed.

Lemma Init_finish_finish (fs : flag.FlagSet vars.t) names v :
  ("u" ∈ flag.actual fs <-> "u" ∈ names) ->
  ("headauth" ∈ flag.actual fs <-> "headauth" ∈ names) ->
  Init_finish fs v = finish names v.
Proof.
  intros Hu Hh. unfold Init_finish, finish. rewrite Visit_Init_visit.
  rewrite (bool_decide_ext _ ("u" ∈ names \/ "headauth" ∈ names)); [done|].
  by rewrite Hu, Hh.
Qed.

Lemma Init_flags_main :
  Init_flags (main_fs, vars.mk zeroConfig false "" 0 "") =
  (flag.mkFlagSet "resgate" flag.ExitOnError (Some usage) Init_formal ∅, vars0).
Proof. reflexivity. Qed.

(** [Init], as [main] calls it, is [resolve] on what the arguments amount
    to. *)
Lemma Init_resolve args o names e p :
  amounts args o names e -> Init zeroConfig main_fs args p = resolve o names e p.
Proof.
  intros [_ H]. unfold Init, resolve. rewrite Init_flags_main.
  cbn [fst snd]. unfold flag.Parse at 1. cbn [flag.formal flag.actual].
  rewrite H. destruct e as [err|].
  { unfold bind, flag.usage; cbn [flag.Usage flag.errorHandling].
    destruct err; reflexivity. }
  unfold bind at 1, ret at 1. cbn [fst snd].
  set (v := overrides.apply o vars0).
  destruct (2 ^ 16 <=? vars.port v); [reflexivity|].
  destruct (vars.showHelp v); [reflexivity|].
  unfold bind at 1. cbn [ret].
  destruct (String.eqb (vars.configFile v) "") eqn:Hcf; cbn [negb].
  { unfold bind, ret; cbn [fst snd]. f_equal. f_equal. f_equal.
    apply Init_finish_finish; cbn [flag.actual]; names_union. }
  unfold bind at 1. unfold Init_file. unfold bind at 1. unfold ioutil.ReadFile.
  destruct (files p !! vars.configFile v) as [[|data]|]; cbn [os.IsNotExist negb ret fst snd].
  - reflexivity.
  - destruct (snd (json.Unmarshal data (vars.c v))) as [err|]; [reflexivity|].
    unfold flag.Parse, bind, ret. cbn [flag.formal flag.actual]. rewrite H. cbn [fst snd].
    f_equal. f_equal. f_equal. apply Init_finish_finish; cbn [flag.actual]; names_union.
  - unfold json.MarshalIndent, ioutil.WriteFile, bind, ret. cbn [vars.c vars.set_c vars.configFile].
    case_bool_decide; cbn [fst snd]; f_equal; f_equal; f_equal;
      apply Init_finish_finish; cbn [flag.actual]; names_union.
Qed.

Lemma commandLine_amounts args o names e :
  amounts args o names e -> commandLine args = (names, overrides.apply o vars0, e).
Proof.
  intros [_ H]. unfold commandLine. rewrite H. by rewrite (right_id_L ∅ (∪)).
Qed.

Ltac split_ifs :=
  repeat (simpl;
          match goal with
          | |- context [if ?b then _ else _] =>
              lazymatch b with
              | context [if _ then _ else _] => fail
              | _ => destruct b eqn:?
              end
          end).

Section SetDefault_facts.
Variable c : Config.

Lemma SetDefault_NatsURL :
  NatsURL (SetDefault c) =
  if String.eqb (NatsURL c) "" then "nats://127.0.0.1:4222" else NatsURL c.
Proof. unfold SetDefault. destruct c as [n r d s]; simpl. by split_ifs. Qed.

Lemma SetDefault_RequestTimeout :
  RequestTimeout (SetDefault c) = if RequestTimeout c =? 0 then 5 else RequestTimeout c.
Proof. unfold SetDefault. destruct c as [n r d s]; simpl. by split_ifs. Qed.

Lemma SetDefault_Debug : Debug (SetDefault c) = Debug c.
Proof. unfold SetDefault. destruct c as [n r d s]; simpl. by split_ifs. Qed.

Lemma SetDefault_server :
  server_Config (SetDefault c) = server.SetDefault (server_Config c).
Proof. unfold SetDefault. destruct c as [n r d s]; simpl. by split_ifs. Qed.

Lemma SetDefault_Port : Port (SetDefault c) = if Port c =? 0 then 8080 else Port c.
Proof.
  unfold Port. rewrite SetDefault_server. unfold server.SetDefault.
  destruct (server_Config c); simpl. by split_ifs.
Qed.

Lemma SetDefault_WSPath :
  WSPath (SetDefault c) = if String.eqb (WSPath c) "" then "/" else WSPath c.
Proof.
  unfold WSPath. rewrite SetDefault_server. unfold server.SetDefault.
  destruct (server_Config c); simpl. by split_ifs.
Qed.

Lemma SetDefault_APIPath :
  APIPath (SetDefault c) = if String.eqb (APIPath c) "" then "/api/" else APIPath c.
Proof.
  unfold APIPath. rewrite SetDefault_server. unfold server.SetDefault.
  destruct (server_Config c); simpl. by split_ifs.
Qed.

Lemma SetDefault_HeaderAuth : HeaderAuth (SetDefault c) = HeaderAuth c.
Proof.
  unfold HeaderAuth. rewrite SetDefault_server. unfold server.SetDefault.
  destruct (server_Config c); simpl. by split_ifs.
Qed.

Lemma SetDefault_TLS : TLS (SetDefault c) = TLS c.
Proof.
  unfold TLS. rewrite SetDefault_server. unfold server.SetDefault.
  destruct (server_Config c); simpl. by split_ifs.
Qed.

Lemma SetDefault_TLSCert : TLSCert (SetDefault c) = TLSCert c.
Proof.
  unfold TLSCert. rewrite SetDefault_server. unfold server.SetDefault.
  destruct (server_Config c); simpl. by split_ifs.
Qed.

Lemma SetDefault_TLSKey : TLSKey (SetDefault c) = TLSKey c.
Proof.
  unfold TLSKey. rewrite SetDefault_server. unfold server.SetDefault.
  destruct (server_Config c); simpl. by split_ifs.
Qed.
End SetDefault_facts.

Lemma finish_layered names v : finish names v = SetDefault (layered names v).
Proof. reflexivity. Qed.

Section layered_facts.
Variables (names : gset string) (v : vars.t).

Lemma layered_NatsURL : NatsURL (layered names v) = NatsURL (vars.c v).
Proof. unfold layered. by split_ifs. Qed.
Lemma layered_RequestTimeout : RequestTimeout (layered names v) = RequestTimeout (vars.c v).
Proof. unfold layered. by split_ifs. Qed.
Lemma layered_Debug : Debug (layered names v) = Debug (vars.c v).
Proof. unfold layered. by split_ifs. Qed.
Lemma layered_WSPath : WSPath (layered names v) = WSPath (vars.c v).
Proof. unfold layered. by split_ifs. Qed.
Lemma layered_APIPath : APIPath (layered names v) = APIPath (vars.c v).
Proof. unfold layered. by split_ifs. Qed.
Lemma layered_TLS : TLS (layered names v) = TLS (vars.c v).
Proof. unfold layered. by split_ifs. Qed.
Lemma layered_TLSCert : TLSCert (layered names v) = TLSCert (vars.c v).
Proof. unfold layered. by split_ifs. Qed.
Lemma layered_TLSKey : TLSKey (layered names v) = TLSKey (vars.c v).
Proof. unfold layered. by split_ifs. Qed.
Lemma layered_Port :
  Port (layered names v) =
  if 0 <? vars.port v then vars.port v mod 2 ^ 16 else Port (vars.c v).
Proof. unfold layered. by split_ifs. Qed.
Lemma layered_HeaderAuth :
  HeaderAuth (layered names v) =
  if bool_decide ("u" ∈ names \/ "headauth" ∈ names)
  then asked (vars.headauth v) else HeaderAuth (vars.c v).
Proof. unfold layered. by split_ifs. Qed.
End layered_facts.

Section json_facts.

Lemma object_invariant (I : Config -> Prop) :
  (forall f x c c', I c -> json.store f x c = inr c' -> I c') ->
  forall ms c e, I c -> I (fst (json.object ms c e)).
Proof.
  intros Hstore. induction ms as [|[key x] ms IH]; intros c e Hc; [done|].
  cbn [json.object]. destruct (json.findField key) as [f|]; [|by apply IH].
  destruct (json.store f x c) as [err|c'] eqn:Hs; [by apply IH|].
  apply IH. eauto.
Qed.

Lemma Unmarshal_invariant (I : Config -> Prop) :
  (forall f x c c', I c -> json.store f x c = inr c' -> I c') ->
  forall data c, I c -> I (fst (json.Unmarshal data c)).
Proof.
  intros Hstore [[ms|[]]|] c Hc; cbn [json.Unmarshal fst]; try done.
  by apply object_invariant.
Qed.

Lemma store_Port_range f x c c' :
  0 <= Port c < 2 ^ 16 -> json.store f x c = inr c' -> 0 <= Port c' < 2 ^ 16.
Proof.
  intros Hc. destruct f, x; cbn; intros H; try discriminate;
    try (injection H as <-; exact Hc).
  - destruct (_ && _); [|discriminate]. by injection H as <-.
  - destruct ((0 <=? n) && (n <? 2 ^ 16)) eqn:Hn; [|discriminate].
    injection H as <-. cbn. apply andb_true_iff in Hn. lia.
Qed.

Lemma Unmarshal_Port_range data c :
  0 <= Port c < 2 ^ 16 -> 0 <= Port (fst (json.Unmarshal data c)) < 2 ^ 16.
Proof. apply (Unmarshal_invariant (fun c => 0 <= Port c < 2 ^ 16)), store_Port_range. Qed.



End json_facts.

(** When [resolve] returns a configuration and no error. *)
Lemma resolve_success o names p q c' :
  resolve o names None p = (q, Return (c', None)) ->
  vars.port (overrides.apply o vars0) < 2 ^ 16 /\
  vars.showHelp (overrides.apply o vars0) = false /\
  stdout q = stdout p /\ stderr q = stderr p /\
  exists v2, layers o p (overrides.apply o vars0) v2 /\ c' = finish names v2.
Proof.
  unfold resolve. set (v := overrides.apply o vars0).
  destruct (2 ^ 16 <=? vars.port v) eqn:Hport; [discriminate|].
  apply Z.leb_gt in Hport.
  destruct (vars.showHelp v); [discriminate|].
  destruct (String.eqb (vars.configFile v) "") eqn:Hcf;
    [apply String.eqb_eq in Hcf|apply String.eqb_neq in Hcf].
  { intros [= <- <-]. repeat split; try done. exists v. split; [by constructor|done]. }
  destruct (files p !! vars.configFile v) as [[|data]|] eqn:Hfile.
  - discriminate.
  - destruct (json.Unmarshal data (vars.c v)) as [cf [err|]] eqn:Hun; cbn [fst snd];
      [discriminate|].
    intros [= <- <-]. repeat split; try done. eexists. split; [|done].
    by econstructor.
  - cbn [json.MarshalIndent]. unfold ioutil.WriteFile.
    intros H. assert (c' = finish names (vars.set_c SetDefault v) /\
                      stdout q = stdout p /\ stderr q = stderr p) as (-> & ? & ?).
    { destruct (bool_decide _); cbn [fst] in H; by injection H as <- <-. }
    repeat split; try done. eexists. split; [|done]. by constructor.
Qed.

(** From a run of [Init] in [main] to [resolve]. *)
Lemma Init_success args p q c' names v :
  commandLine args = (names, v, None) ->
  Init zeroConfig main_fs args p = (q, Return (c', None)) ->
  exists o, v = overrides.apply o vars0 /\ overrides.linked names o /\
            resolve o names None p = (q, Return (c', None)).
Proof.
  intros Hcl HInit. destruct (amounts_exists args) as (o & names' & e & Ham).
  rewrite (commandLine_amounts _ _ _ _ Ham) in Hcl. injection Hcl as -> <- ->.
  rewrite (Init_resolve _ _ _ _ _ Ham) in HInit. exists o. by destruct Ham.
Qed.

Lemma resolve_error o names err p q r :
  resolve o names (Some err) p = (q, Return r) -> False.
Proof. unfold resolve. by destruct err. Qed.

Lemma Init_returns args p q c' :
  Init zeroConfig main_fs args p = (q, Return (c', None)) ->
  exists names v, commandLine args = (names, v, None).
Proof.
  intros HInit. destruct (amounts_exists args) as (o & names & e & Ham).
  rewrite (Init_resolve _ _ _ _ _ Ham) in HInit.
  destruct e as [err|]; [by apply resolve_error in HInit|].
  rewrite (commandLine_amounts _ _ _ _ Ham). eauto.
Qed.

Section layers_facts.
Variables (o : overrides.t) (p : Process) (v2 : vars.t).
Let v := overrides.apply o vars0.
Hypothesis H : layers o p v v2.

Lemma layers_port : vars.port v2 = vars.port v.
Proof. subst v. destruct H; try done. cbn. by destruct (overrides.o_port o). Qed.

Lemma layers_headauth : vars.headauth v2 = vars.headauth v.
Proof. subst v. destruct H; try done. cbn. by destruct (overrides.o_headauth o). Qed.

Lemma layers_Port_range : 0 <= Port (vars.c v2) < 2 ^ 16.
Proof.
  subst v. destruct H as [?|? ?|data cf ? ? Hun].
  - cbn. lia.
  - cbn [vars.c vars.set_c]. rewrite SetDefault_Port. cbn. lia.
  - change (Port (vars.c (overrides.apply o (vars.set_c (fun _ => cf) (overrides.apply o vars0)))))
      with (Port (fst (cf, @None error))).
    rewrite <- Hun. apply Unmarshal_Port_range. cbn. lia.
Qed.

Lemma layers_NatsURL :
  NatsURL (vars.c v) <> "" -> NatsURL (vars.c v2) = NatsURL (vars.c v).
Proof.
  subst v. destruct H; try done.
  - cbn [vars.c vars.set_c]. rewrite SetDefault_NatsURL.
    intros Hne. apply String.eqb_neq in Hne. by rewrite Hne.
  - cbn. by destruct (overrides.o_NatsURL o).
Qed.

Lemma layers_RequestTimeout :
  RequestTimeout (vars.c v) <> 0 -> RequestTimeout (vars.c v2) = RequestTimeout (vars.c v).
Proof.
  subst v. destruct H; try done.
  - cbn [vars.c vars.set_c]. rewrite SetDefault_RequestTimeout.
    intros Hne. apply Z.eqb_neq in Hne. by rewrite Hne.
  - cbn. by destruct (overrides.o_RequestTimeout o).
Qed.

Lemma layers_WSPath :
  WSPath (vars.c v) <> "" -> WSPath (vars.c v2) = WSPath (vars.c v).
Proof.
  subst v. destruct H; try done.
  - cbn [vars.c vars.set_c]. rewrite SetDefault_WSPath.
    intros Hne. apply String.eqb_neq in Hne. by rewrite Hne.
  - cbn. by destruct (overrides.o_WSPath o).
Qed.

Lemma layers_APIPath :
  APIPath (vars.c v) <> "" -> APIPath (vars.c v2) = APIPath (vars.c v).
Proof.
  subst v. destruct H; try done.
  - cbn [vars.c vars.set_c]. rewrite SetDefault_APIPath.
    intros Hne. apply String.eqb_neq in Hne. by rewrite Hne.
  - cbn. by destruct (overrides.o_APIPath o).
Qed.

Lemma layers_TLS :
  is_Some (overrides.o_TLS o) -> TLS (vars.c v2) = TLS (vars.c v).
Proof.
  subst v. intros [b Hb]. destruct H; try done.
  - cbn [vars.c vars.set_c]. by rewrite SetDefault_TLS.
  - cbn. by rewrite Hb.
Qed.

Lemma layers_TLSCert :
  is_Some (overrides.o_TLSCert o) -> TLSCert (vars.c v2) = TLSCert (vars.c v).
Proof.
  subst v. intros [b Hb]. destruct H; try done.
  - cbn [vars.c vars.set_c]. by rewrite SetDefault_TLSCert.
  - cbn. by rewrite Hb.
Qed.

Lemma layers_TLSKey :
  is_Some (overrides.o_TLSKey o) -> TLSKey (vars.c v2) = TLSKey (vars.c v).
Proof.
  subst v. intros [b Hb]. destruct H; try done.
  - cbn [vars.c vars.set_c]. by rewrite SetDefault_TLSKey.
  - cbn. by rewrite Hb.
Qed.

End layers_facts.

(** From the first pass to [resolve], whatever [Init] comes to. *)
Lemma Init_commandLine args p names v :
  commandLine args = (names, v, None) ->
  exists o, v = overrides.apply o vars0 /\ overrides.linked names o /\
            Init zeroConfig main_fs args p = resolve o names None p.
Proof.
  intros Hcl. destruct (amounts_exists args) as (o & names' & e & Ham).
  rewrite (commandLine_amounts _ _ _ _ Ham) in Hcl. injection Hcl as -> <- ->.
  exists o. rewrite (Init_resolve _ _ _ _ _ Ham). by destruct Ham.
Qed.

Lemma Init_formal_config :
  Init_formal !! "config" =
  Some (flag.mkFlag "config" false (fun s => inr (vars.set_configFile s))).
Proof. reflexivity. Qed.

Lemma parseOne_config path rest a v :
  flag.parseOne Init_formal ("--config" :: path :: rest) a v =
  flag.Seen ({["config"]} ∪ a) (vars.set_configFile path v) rest.
Proof.
  unfold flag.parseOne.
  change (flag.syntax "--config") with (flag.IsFlag "config" None).
  cbv beta iota. by rewrite Init_formal_config.
Qed.

Lemma amounts_config path :
  amounts ["--config"; path] (only_config path) {["config"]} None.
Proof.
  split.
  - unfold overrides.linked; simpl; rewrite ?elem_of_singleton.
    repeat split; try (intros [? ?]; discriminate); try (intros [?|?]; discriminate);
      try (intros ?; discriminate); eauto.
  - intros a v. rewrite (parse_cons_seen _ _ _ _ _ _ _ _ (parseOne_config path [])) by (simpl; lia).
    by destruct v as [[? ? ? []] ? ? ? ?].
Qed.

Section resolve_cases.
Variables (o : overrides.t) (names : gset string) (p : Process).
Let v := overrides.apply o vars0.
Hypothesis Hport : vars.port v < 2 ^ 16.
Hypothesis Hhelp : vars.showHelp v = false.
Hypothesis Hcf : vars.configFile v <> "".

Lemma resolve_bootstrap :
  files p !! vars.configFile v = None ->
  resolve o names None p =
  (if bool_decide (vars.configFile v ∈ readonly p) then p
   else written (vars.configFile v) (bootstrap v) p,
   Return (finish names (vars.set_c SetDefault v), None)).
Proof.
  intros Hfile. unfold resolve. fold v.
  apply Z.leb_gt in Hport. rewrite Hport, Hhelp.
  apply String.eqb_neq in Hcf. rewrite Hcf, Hfile.
  unfold bootstrap, written, json.MarshalIndent, ioutil.WriteFile.
  by destruct (bool_decide _).
Qed.

Lemma resolve_file data cf :
  files p !! vars.configFile v = Some (Contents data) ->
  json.Unmarshal data (vars.c v) = (cf, None) ->
  resolve o names None p =
  (p, Return (finish names (overrides.apply o (vars.set_c (fun _ => cf) v)), None)).
Proof.
  intros Hfile Hun. unfold resolve. fold v.
  apply Z.leb_gt in Hport. rewrite Hport, Hhelp.
  apply String.eqb_neq in Hcf. by rewrite Hcf, Hfile, Hun.
Qed.


Lemma resolve_malformed data err :
  files p !! vars.configFile v = Some (Contents data) ->
  snd (json.Unmarshal data (vars.c v)) = Some err ->
  resolve o names None p =
  (p, Return (fst (json.Unmarshal data (vars.c v)), Some (ErrorParsingConfigFile err))).
Proof.
  intros Hfile Hun. unfold resolve. fold v.
  apply Z.leb_gt in Hport. rewrite Hport, Hhelp.
  apply String.eqb_neq in Hcf. by rewrite Hcf, Hfile, Hun.
Qed.
End resolve_cases.

(** A configuration at its defaults goes through the file unchanged. *)
Lemma Unmarshal_bootstrap_defaults path :
  json.Unmarshal (Some (bootstrap (overrides.apply (only_config path) vars0)))
    (vars.c (overrides.apply (only_config path) vars0)) =
  (SetDefault zeroConfig, None).
Proof. reflexivity. Qed.

Lemma finish_defaults path :
  finish {["config"]}
    (overrides.apply (only_config path)
       (vars.set_c (fun _ => SetDefault zeroConfig) (overrides.apply (only_config path) vars0))) =
  finish {["config"]} (vars.set_c SetDefault (overrides.apply (only_config path) vars0)).
Proof. reflexivity. Qed.

Lemma Init_formal_port :
  Init_formal !! "port" =
  Some (flag.mkFlag "port" false
          (fun s => match strconv.ParseUint s with
                    | inr n => inr (vars.set_port n)
                    | inl e => inl e
                    end)).
Proof. reflexivity. Qed.

Lemma Init_formal_p :
  Init_formal !! "p" =
  Some (flag.mkFlag "p" false
          (fun s => match strconv.ParseUint s with
                    | inr n => inr (vars.set_port n)
                    | inl e => inl e
                    end)).
Proof. reflexivity. Qed.











(** [Init] leaves the calls and the clock alone, and does not panic. *)
Lemma Init_frame args p :
  calls (fst (Init zeroConfig main_fs args p)) = calls p /\
  clock (fst (Init zeroConfig main_fs args p)) = clock p /\
  forall msg, snd (Init zeroConfig main_fs args p) <> Panic msg.
Proof.
  destruct (amounts_exists args) as (o & names & e & Ham).
  rewrite (Init_resolve _ _ _ _ _ Ham). unfold resolve. cbv zeta.
  destruct e as [err|]; [by destruct err|].
  destruct (2 ^ 16 <=? _); [done|].
  destruct (vars.showHelp _); [done|].
  destruct (String.eqb _ ""); [done|].
  destruct (files p !! _) as [[|data]|]; [done| |].
  - by destruct (snd (json.Unmarshal _ _)).
  - cbn [json.MarshalIndent]. unfold ioutil.WriteFile. by destruct (bool_decide _).
Qed.

Lemma select_sym (ta tb : option Z) (tie : bool) p :
  select (ta, ret tt) (tb, ret tt) tie p = select (tb, ret tt) (ta, ret tt) tie p.
Proof.
  unfold select; cbn [fst snd]. destruct ta as [ta|], tb as [tb|]; try reflexivity.
  destruct (ta <? tb) eqn:E1, (tb <? ta) eqn:E2; try reflexivity.
  - apply Z.ltb_lt in E1, E2. lia.
  - apply Z.ltb_ge in E1, E2. assert (ta = tb) as -> by lia. by destruct tie.
Qed.

Lemma main_serve_started env cfg p :
  main_serve env cfg p =
  match Start_returns env with
  | Some err => printAndDie (ErrorText err) false (served cfg p)
  | None =>
      (r <- select (signal_after env, ret tt)
                   (StopChannel_after env,
                    match StopChannel_sends env with
                    | Some err => printAndDie (ErrorText err) false
                    | None => ret tt
                    end)
                   (tie env) ;;
       match r with
       | inr Blocked => ret (inr Blocked)
       | inl _ => main_shutdown env
       end) (served cfg p)
  end.
Proof. unfold main_serve. by destruct (Start_returns env). Qed.

Lemma not_Stop_served cfg p : Stop ∉ calls p -> Stop ∉ calls (served cfg p).
Proof.
  intros Hp. unfold served; cbn [calls].
  rewrite !elem_of_app, !list_elem_of_singleton. intros [[[[?|?]|?]|?]|?]; done.
Qed.

(** ** Facts for the further properties *)

(** The flags [-h] and [-help] are defined, so [parseOne] never takes their
    absence for a request for help. *)
Lemma parseOne_not_ErrHelp args a v :
  flag.parseOne Init_formal args a v <> flag.Failed ErrHelp.
Proof.
  unfold flag.parseOne. destruct args as [|s rest]; [done|].
  destruct (flag.syntax s) as [| | |name value]; try done.
  destruct (Init_formal !! name) as [fl|] eqn:Hfl.
  - destruct (flag.IsBoolFlag fl).
    + by destruct (flag.Set_ fl _).
    + destruct value as [value|]; [by destruct (flag.Set_ fl _)|].
      destruct rest as [|value rest']; [done|]. by destruct (flag.Set_ fl _).
  - destruct (String.eqb name "help") eqn:E1; [apply String.eqb_eq in E1; by subst|].
    destruct (String.eqb name "h") eqn:E2; [apply String.eqb_eq in E2; by subst|].
    done.
Qed.

Lemma loop_not_ErrHelp n : forall args a v,
  snd (flag.loop n Init_formal args a v) <> Some ErrHelp.
Proof.
  induction n as [|n IH]; intros args a v; [done|]. cbn [flag.loop].
  pose proof (parseOne_not_ErrHelp args a v) as H.
  destruct (flag.parseOne Init_formal args a v) as [|err|a' v' rest]; [done| |apply IH].
  cbn. intros [= ->]. done.
Qed.

(** An argument that is not a flag ends the pass: what follows it is not
    looked at. *)
Lemma parse_stops x rest a (v : vars.t) :
  flag.syntax x = flag.NotAFlag \/ flag.syntax x = flag.Terminator ->
  flag.parse Init_formal (x :: rest) a v = flag.parse Init_formal [] a v.
Proof.
  intros H. unfold flag.parse. cbn [List.length flag.loop]. unfold flag.parseOne.
  by destruct H as [-> | ->].
Qed.

Lemma over_over {A} (a : option A) x :
  overrides.over a (overrides.over a x) = overrides.over a x.
Proof. by destruct a. Qed.

(** Two configurations with the same fields are the same. *)
Lemma Config_eq c1 c2 :
  NatsURL c1 = NatsURL c2 -> RequestTimeout c1 = RequestTimeout c2 ->
  Debug c1 = Debug c2 -> Port c1 = Port c2 -> WSPath c1 = WSPath c2 ->
  APIPath c1 = APIPath c2 -> HeaderAuth c1 = HeaderAuth c2 -> TLS c1 = TLS c2 ->
  TLSCert c1 = TLSCert c2 -> TLSKey c1 = TLSKey c2 -> c1 = c2.
Proof.
  destruct c1 as [? ? ? []], c2 as [? ? ? []]. cbn. by intros -> -> -> -> -> -> -> -> -> ->.
Qed.

Lemma Init_flags_kept (fs : flag.FlagSet vars.t) c :
  Init_flags (fs, vars.mk c false "" 0 "") = Init_flags (fs, vars.mk (kept c) false "" 0 "").
Proof.
  unfold Init_flags, flag.BoolVar, flag.StringVar, flag.UintVar, flag.IntVar.
  cbn [fst snd]. apply f_equal. destruct c as [? ? ? []]. vm_compute. reflexivity.
Qed.

(** [Init] returns an error only from the block of the config file, where
    nothing has been written. *)
Lemma Init_error_unchanged args p q cfg err :
  Init zeroConfig main_fs args p = (q, Return (cfg, Some err)) -> q = p.
Proof.
  destruct (amounts_exists args) as (o & names & e & Ham).
  rewrite (Init_resolve _ _ _ _ _ Ham). unfold resolve. cbv zeta.
  destruct e as [e|]; [by destruct e|].
  destruct (2 ^ 16 <=? _); [done|].
  destruct (vars.showHelp _); [done|].
  destruct (String.eqb _ ""); [done|].
  destruct (files p !! vars.configFile _) as [[|data]|].
  - by intros [= <- _].
  - destruct (snd (json.Unmarshal _ _)); [by intros [= <- _]|done].
  - cbn [json.MarshalIndent]. done.
Qed.

(** [Init] ends in a return, in exit status 0 or in exit status 1. *)
Lemma Init_outcomes args p :
  (exists r, snd (Init zeroConfig main_fs args p) = Return r) \/
  snd (Init zeroConfig main_fs args p) = Exit 0 \/
  snd (Init zeroConfig main_fs args p) = Exit 1.
Proof.
  destruct (amounts_exists args) as (o & names & e & Ham).
  rewrite (Init_resolve _ _ _ _ _ Ham). unfold resolve. cbv zeta.
  destruct e as [err|]; [right; left; by destruct err|].
  destruct (2 ^ 16 <=? _); [by right; right|].
  destruct (vars.showHelp _); [by right; left|].
  destruct (String.eqb _ ""); [left; eauto|].
  destruct (files p !! _) as [[|data]|]; [left; eauto| |].
  - destruct (snd (json.Unmarshal _ _)); left; eauto.
  - cbn [json.MarshalIndent]. left; eauto.
Qed.

Ltac separate_tac :=
  intros f x c1 c2 H; destruct f, x; cbn; try done; destruct (_ && _); done.

Lemma separate_NatsURL : separate NatsURL.
Proof. separate_tac. Qed.

Lemma separate_RequestTimeout : separate RequestTimeout.
Proof. separate_tac. Qed.

Lemma separate_Debug : separate Debug.
Proof. separate_tac. Qed.

Lemma object_separate {A} (proj : Config -> A) :
  separate proj ->
  forall ms c1 c2 e1 e2, proj c1 = proj c2 ->
    proj (fst (json.object ms c1 e1)) = proj (fst (json.object ms c2 e2)).
Proof.
  intros Hsep. induction ms as [|[key x] ms IH]; intros c1 c2 e1 e2 Hc; [done|].
  cbn [json.object]. destruct (json.findField key) as [f|]; [|by apply IH].
  pose proof (Hsep f x c1 c2 Hc) as H.
  destruct (json.store f x c1), (json.store f x c2); try done; by apply IH.
Qed.

Lemma Unmarshal_separate {A} (proj : Config -> A) data c1 c2 :
  separate proj -> proj c1 = proj c2 ->
  proj (fst (json.Unmarshal data c1)) = proj (fst (json.Unmarshal data c2)).
Proof.
  intros Hsep Hc. destruct data as [[ms|[]]|]; cbn [json.Unmarshal fst]; try done.
  by apply object_separate.
Qed.

(** What the file block leaves in a field that no flag has set. *)
Lemma layers_from_file {A} (proj : Config -> A) o p v2 :
  separate proj ->
  (forall c, proj (vars.c (overrides.apply o (vars.set_c (fun _ => c) (overrides.apply o vars0))))
             = proj c) ->
  proj (vars.c (overrides.apply o vars0)) = proj zeroConfig ->
  layers o p (overrides.apply o vars0) v2 ->
  proj (vars.c v2) = proj (fromFile p (vars.configFile (overrides.apply o vars0))) \/
  (fromFile p (vars.configFile (overrides.apply o vars0)) = zeroConfig /\
   proj (vars.c v2) = proj (SetDefault (vars.c (overrides.apply o vars0)))).
Proof.
  intros Hsep Happ Hzero. unfold fromFile. intros [Hcf|Hcf Hfile|data cf Hcf Hfile Hun].
  - left. by rewrite Hcf.
  - right. apply String.eqb_neq in Hcf. by rewrite Hcf, Hfile.
  - left. apply String.eqb_neq in Hcf. rewrite Hcf, Hfile, Happ.
    change cf with (fst (cf, @None error)). rewrite <- Hun.
    by apply Unmarshal_separate.
Qed.

(** What the file block leaves in a field that a flag has set to [x]. *)
Lemma layers_given {A} (proj : Config -> A) o p v2 x :
  (forall v, proj (vars.c (overrides.apply o v)) = x) ->
  layers o p (overrides.apply o vars0) v2 ->
  proj (vars.c v2) = x \/
  proj (vars.c v2) = proj (SetDefault (vars.c (overrides.apply o vars0))).
Proof.
  intros Happ [Hcf|Hcf Hfile|data cf Hcf Hfile Hun]; [left|by right|left]; apply Happ.
Qed.

Lemma not_Some_None {A} (o : option A) : ~ is_Some o -> o = None.
Proof. destruct o; [intros []; eauto|done]. Qed.

Lemma object_error_kept ms : forall c e, snd (json.object ms c (Some e)) = Some e.
Proof.
  induction ms as [|[key x] ms IH]; intros c e; [done|].
  cbn [json.object]. destruct (json.findField key) as [f|]; [|apply IH].
  destruct (json.store f x c); apply IH.
Qed.

(** A member that cannot be stored makes the document an error, wherever
    it stands. *)
Lemma object_bad_member ms key x f :
  In (key, x) ms -> json.findField key = Some f ->
  (forall c, exists e, json.store f x c = inl e) ->
  forall c e0, snd (json.object ms c e0) <> None.
Proof.
  intros Hin Hf Hbad. induction ms as [|[key' x'] ms IH]; intros c e0; [done|].
  cbn [json.object]. destruct Hin as [[= -> ->]|Hin].
  - rewrite Hf. destruct (Hbad c) as [e ->].
    destruct e0; by rewrite object_error_kept.
  - destruct (json.findField key') as [f'|]; [|by apply IH].
    destruct (json.store f' x' c); by apply IH.
Qed.

(** The error of an object is the one of a member. *)
Lemma object_error_type ms : forall c e0 e,
  (forall e', e0 = Some e' -> exists f, e' = UnmarshalTypeError f) ->
  snd (json.object ms c e0) = Some e -> exists f, e = UnmarshalTypeError f.
Proof.
  induction ms as [|[key x] ms IH]; intros c e0 e He0; [by apply He0|].
  cbn [json.object]. destruct (json.findField key) as [f|]; [|by apply IH].
  destruct (json.store f x c) as [e1|c1] eqn:Hst; [|by apply IH].
  apply IH. destruct e0 as [e0|]; [exact He0|]. intros e' [= <-].
  destruct f, x; cbn in Hst; try discriminate;
    try (destruct (_ && _); try discriminate); injection Hst as <-; eauto.
Qed.

(** A mistyped member names a field that cannot store it. *)
Lemma mistyped_store key x :
  mistyped key x = true ->
  exists f, json.findField key = Some f /\ forall c, exists e, json.store f x c = inl e.
Proof.
  unfold mistyped.
  destruct (String.eqb key "natsUrl") eqn:E1.
  { apply String.eqb_eq in E1 as ->. exists json.fNatsURL. split; [reflexivity|].
    intros c. destruct x; try discriminate; cbn; eauto. }
  destruct (String.eqb key "requestTimeout") eqn:E2.
  { apply String.eqb_eq in E2 as ->. exists json.fRequestTimeout. split; [reflexivity|].
    intros c. destruct x; try discriminate; cbn; eauto.
    apply negb_true_iff in H. rewrite H. eauto. }
  destruct (String.eqb key "debug") eqn:E3; [|discriminate].
  apply String.eqb_eq in E3 as ->. exists json.fDebug. split; [reflexivity|].
  intros c. destruct x; try discriminate; cbn; eauto.
Qed.

Lemma digit_nonneg c d : strconv.digit c = Some d -> 0 <= d.
Proof.
  unfold strconv.digit. set (n := Z.of_nat (nat_of_ascii c)).
  destruct ((48 <=? n) && (n <=? 57)) eqn:E1.
  { apply andb_true_iff in E1 as [E _]. apply Z.leb_le in E. intros [= <-]. lia. }
  destruct ((97 <=? n) && (n <=? 122)) eqn:E2.
  { apply andb_true_iff in E2 as [E _]. apply Z.leb_le in E. intros [= <-]. lia. }
  destruct ((65 <=? n) && (n <=? 90)) eqn:E3; [|done].
  apply andb_true_iff in E3 as [E _]. apply Z.leb_le in E. intros [= <-]. lia.
Qed.

Lemma digits_nonneg base s : forall n m,
  0 <= base -> 0 <= n -> strconv.digits base s n = inr m -> 0 <= m.
Proof.
  induction s as [|c s IH]; intros n m Hb Hn; cbn [strconv.digits].
  - by intros [= <-].
  - destruct (strconv.digit c) as [d|] eqn:Hd; [|done].
    apply digit_nonneg in Hd.
    destruct (base <=? d); [done|]. destruct (_ <=? n); [done|].
    destruct (_ <? _); [done|]. apply IH; [done|]. nia.
Qed.

Lemma ParseUint_nonneg s n : strconv.ParseUint s = inr n -> 0 <= n.
Proof.
  unfold strconv.ParseUint. destruct s as [|c0 s]; [done|].
  assert (H10 : strconv.digits 10 (String c0 s) 0 = inr n -> 0 <= n)
    by (apply digits_nonneg; lia).
  destruct c0 as [[] [] [] [] [] [] [] []]; try exact H10.
  destruct s as [|c s]; [by intros [= <-]|].
  destruct (_ || _).
  - destruct s; [done|]. apply digits_nonneg; lia.
  - apply digits_nonneg; lia.
Qed.

(** [ParseInt] yields what fits an [int]. *)
Lemma ParseInt_range s n : strconv.ParseInt s = inr n -> - 2 ^ 63 <= n < 2 ^ 63.
Proof.
  unfold strconv.ParseInt. destruct s as [|c s]; [done|]. cbv zeta.
  destruct (strconv.ParseUint _) as [[]|un] eqn:Hun; try done.
  apply ParseUint_nonneg in Hun.
  destruct (c =? "-")%char; cbn [negb andb].
  - destruct (2 ^ 63 <? un) eqn:E; [done|]. apply Z.ltb_ge in E. intros [= <-]. lia.
  - destruct (2 ^ 63 <=? un) eqn:E; [done|]. apply Z.leb_gt in E. intros [= <-]. lia.
Qed.

Lemma Init_formal_keeps_int name fl s w :
  Init_formal !! name = Some fl -> flag.Set_ fl s = inr w -> keeps_int {[name]} w.
Proof.
  rewrite Init_formal_eq. intros Hfl Hset.
  repeat (rewrite lookup_insert in Hfl; case_decide;
          [ subst name; injection Hfl as <-; cbn [flag.Set_] in Hset | ]);
    try (rewrite lookup_empty in Hfl; discriminate).
  all: try (destruct (strconv.ParseInt s) as [?|n] eqn:Hn; [discriminate|];
            apply ParseInt_range in Hn);
       try (destruct (strconv.ParseUint s) as [?|n]; [discriminate|]);
       try (destruct (strconv.ParseBool s) as [b|]; [|discriminate]);
       injection Hset as <-; intros v Hv; try exact Hv; exact Hn.
Qed.

(** The request timeout of a command line fits an [int]. *)
Lemma commandLine_RequestTimeout args names v e :
  commandLine args = (names, v, e) ->
  - 2 ^ 63 <= RequestTimeout (vars.c v) < 2 ^ 63.
Proof.
  destruct (loop_uniform keeps_int Init_formal) with (n := List.length args) (args := args)
    as (names' & W & e' & HP & HW).
  - by intros v0.
  - intros n1 w1 n2 w2 H1 H2 v0 Hv. apply H2, H1, Hv.
  - apply Init_formal_keeps_int.
  - unfold commandLine, flag.parse. rewrite HW. intros [= _ <- _]. apply HP. cbn. lia.
Qed.

(** The encoding of a configuration, decoded over any other one, gives the
    configuration back, up to [debug]: [false] is left out of the text, so
    the decoder leaves the field as it finds it. *)
Lemma Unmarshal_encode c c0 :
  - 2 ^ 63 <= RequestTimeout c < 2 ^ 63 -> 0 <= Port c < 2 ^ 16 ->
  json.Unmarshal (Some (json.encode c)) c0 = (set_Debug (Debug c || Debug c0) c, None).
Proof.
  intros Hr Hp. unfold json.encode.
  assert (Er : (- 2 ^ 63 <=? RequestTimeout c) && (RequestTimeout c <? 2 ^ 63) = true).
  { apply andb_true_iff. split; [apply Z.leb_le|apply Z.ltb_lt]; lia. }
  assert (Ep : (0 <=? Port c) && (Port c <? 2 ^ 16) = true).
  { apply andb_true_iff. split; [apply Z.leb_le|apply Z.ltb_lt]; lia. }
  destruct c as [n r d [pt w a h t tc tk]], c0 as [n0 r0 d0 [pt0 w0 a0 h0 t0 tc0 tk0]].
  cbn in Er, Ep. destruct d, h; cbn; rewrite ?Er, ?Ep; cbn; rewrite ?Er, ?Ep; reflexivity.
Qed.

(** The first run with a config path that holds no file writes the
    bootstrap file. *)
Lemma Init_writes_bootstrap args p names v :
  commandLine args = (names, v, None) ->
  vars.port v < 2 ^ 16 -> vars.showHelp v = false -> vars.configFile v <> "" ->
  files p !! vars.configFile v = None -> vars.configFile v ∉ readonly p ->
  Init zeroConfig main_fs args p =
  (written (vars.configFile v) (bootstrap v) p,
   Return (finish names (vars.set_c SetDefault v), None)).
Proof.
  intros Hcl Hport Hhelp Hcf Hfile Hro.
  destruct (Init_commandLine args p _ _ Hcl) as (o & -> & _ & ->).
  rewrite (resolve_bootstrap o names p Hport Hhelp Hcf Hfile).
  by rewrite bool_decide_eq_false_2.
Qed.

Lemma finish_names n1 n2 v :
  ("u" ∈ n1 \/ "headauth" ∈ n1 <-> "u" ∈ n2 \/ "headauth" ∈ n2) ->
  finish n1 v = finish n2 v.
Proof. intros H. unfold finish. by rewrite (bool_decide_ext _ _ H). Qed.

(** [resolve] looks at the overrides through [overrides.apply] and at the
    names through the two flags of the header authentication. *)
Lemma resolve_ext o1 n1 o2 n2 e p :
  (forall v, overrides.apply o1 v = overrides.apply o2 v) ->
  ("u" ∈ n1 \/ "headauth" ∈ n1 <-> "u" ∈ n2 \/ "headauth" ∈ n2) ->
  resolve o1 n1 e p = resolve o2 n2 e p.
Proof.
  intros Ho Hn. unfold resolve. cbv zeta. rewrite (Ho vars0).
  destruct e as [err|]; [reflexivity|].
  destruct (2 ^ 16 <=? _); [reflexivity|].
  destruct (vars.showHelp _); [reflexivity|].
  destruct (String.eqb _ ""); [by rewrite (finish_names _ _ _ Hn)|].
  destruct (files p !! _) as [[|data]|]; [reflexivity| |].
  - destruct (snd (json.Unmarshal _ _)); [reflexivity|].
    by rewrite Ho, (finish_names _ _ _ Hn).
  - destruct (json.MarshalIndent _); [reflexivity|]. by rewrite (finish_names _ _ _ Hn).
Qed.

Lemma amounts_after pre args name w o names e :
  (forall a v, flag.parse Init_formal (pre ++ args) a v =
               flag.parse Init_formal args ({[name]} ∪ a) (w v)) ->
  overriding {[name]} w ->
  amounts args o names e ->
  exists o1, (forall v, overrides.apply o1 v = w v) /\
             amounts (pre ++ args) (overrides.seq o1 o) (names ∪ {[name]}) e.
Proof.
  intros Hp (o1 & Hl1 & Ho1) [Hl H]. exists o1. split; [done|]. split.
  - by apply linked_seq.
  - intros a v. by rewrite Hp, H, apply_seq, Ho1, (assoc_L (∪)).
Qed.

Lemma parse_string_flag arg name set x args :
  flag.syntax arg = flag.IsFlag name None ->
  Init_formal !! name = Some (flag.mkFlag name false (fun s => inr (set s))) ->
  forall a v,
    flag.parse Init_formal (arg :: x :: args) a v =
    flag.parse Init_formal args ({[name]} ∪ a) (set x v).
Proof.
  intros Hs Hf a v. apply parse_cons_seen; [|simpl; lia].
  intros a' v'. unfold flag.parseOne. rewrite Hs. cbv beta iota. by rewrite Hf.
Qed.

(** The first select of [main] makes no call. *)
Lemma select_calls env p :
  calls (fst (select (signal_after env, ret tt)
                (StopChannel_after env,
                 match StopChannel_sends env with
                 | Some err => printAndDie (ErrorText err) false
                 | None => ret tt
                 end) (tie env) p)) = calls p.
Proof.
  unfold select. cbn [fst snd].
  destruct (signal_after env) as [s|], (StopChannel_after env) as [t|],
    (StopChannel_sends env) as [err|]; cbn; try done;
    repeat match goal with |- context [if ?b then _ else _] => destruct b end;
    cbn; done.
Qed.

(** The calls of [main_serve]: the four up to [Start], and then [Stop] or
    nothing. *)
Lemma main_serve_calls env cfg p :
  calls (fst (main_serve env cfg p)) = calls (served cfg p) \/
  calls (fst (main_serve env cfg p)) = (calls (served cfg p) ++ [Stop])%list.
Proof.
  rewrite main_serve_started.
  destruct (Start_returns env); [by left|]. unfold bind.
  pose proof (select_calls env (served cfg p)) as Hsel.
  destruct (select _ _ _ _) as [p1 [[[]|[]]|code|msg]]; cbn [fst] in Hsel;
    try (left; by rewrite <- Hsel).
  right. rewrite <- Hsel. unfold main_shutdown, select, bind. cbn [fst snd].
  destruct (Stop_takes env) as [d|]; cbn; [|done].
  repeat match goal with |- context [if ?b then _ else _] => destruct b end; cbn; done.
Qed.

(** [Init] on a flag set as [flag.NewFlagSet] returns it. *)
Lemma Init_flags_fresh name h :
  Init_flags (flag.NewFlagSet name h, vars.mk zeroConfig false "" 0 "") =
  (flag.mkFlagSet name h None Init_formal ∅, vars0).
Proof. reflexivity. Qed.

Lemma Init_resolve_fresh name h args o names p :
  amounts args o names None ->
  Init zeroConfig (flag.NewFlagSet name h) args p = resolve o names None p.
Proof.
  intros [_ H]. unfold Init, resolve. rewrite Init_flags_fresh.
  cbn [fst snd]. unfold flag.Parse at 1. cbn [flag.formal flag.actual].
  rewrite H.
  unfold bind at 1, ret at 1. cbn [fst snd].
  set (v := overrides.apply o vars0).
  destruct (2 ^ 16 <=? vars.port v); [reflexivity|].
  destruct (vars.showHelp v); [reflexivity|].
  unfold bind at 1. cbn [ret].
  destruct (String.eqb (vars.configFile v) "") eqn:Hcf; cbn [negb].
  { unfold bind, ret; cbn [fst snd]. f_equal. f_equal. f_equal.
    apply Init_finish_finish; cbn [flag.actual]; names_union. }
  unfold bind at 1. unfold Init_file. unfold bind at 1. unfold ioutil.ReadFile.
  destruct (files p !! vars.configFile v) as [[|data]|]; cbn [os.IsNotExist negb ret fst snd].
  - reflexivity.
  - destruct (snd (json.Unmarshal data (vars.c v))) as [err|]; [reflexivity|].
    unfold flag.Parse, bind, ret. cbn [flag.formal flag.actual]. rewrite H. cbn [fst snd].
    f_equal. f_equal. f_equal. apply Init_finish_finish; cbn [flag.actual]; names_union.
  - unfold json.MarshalIndent, ioutil.WriteFile, bind, ret. cbn [vars.c vars.set_c vars.configFile].
    case_bool_decide; cbn [fst snd]; f_equal; f_equal; f_equal;
      apply Init_finish_finish; cbn [flag.actual]; names_union.
Qed.

(** ** Facts for the amended claims *)

Lemma digits_bound base s : forall n m,
  n <= 2 ^ 64 - 1 -> strconv.digits base s n = inr m -> m <= 2 ^ 64 - 1.
Proof.
  induction s as [|c s IH]; intros n m Hn; cbn [strconv.digits].
  - by intros [= <-].
  - destruct (strconv.digit c) as [d|]; [|done].
    destruct (base <=? d); [done|]. destruct (_ <=? n); [done|].
    destruct (2 ^ 64 - 1 <? n * base + d) eqn:E; [done|].
    apply Z.ltb_ge in E. by apply IH.
Qed.

(** [ParseUint] yields what fits a [uint]. *)
Lemma ParseUint_range s n : strconv.ParseUint s = inr n -> 0 <= n < 2 ^ 64.
Proof.
  intros H. split; [by apply (ParseUint_nonneg s)|].
  enough (n <= 2 ^ 64 - 1) by lia. revert H.
  unfold strconv.ParseUint. destruct s as [|c0 s]; [done|].
  assert (H10 : strconv.digits 10 (String c0 s) 0 = inr n -> n <= 2 ^ 64 - 1)
    by (apply digits_bound; lia).
  destruct c0 as [[] [] [] [] [] [] [] []]; try exact H10.
  destruct s as [|c s]; [intros [= <-]; lia|].
  destruct (_ || _).
  - destruct s; [done|]. apply digits_bound; lia.
  - apply digits_bound; lia.
Qed.

Lemma Init_formal_keeps_uint name fl s w :
  Init_formal !! name = Some fl -> flag.Set_ fl s = inr w -> keeps_uint {[name]} w.
Proof.
  rewrite Init_formal_eq. intros Hfl Hset.
  repeat (rewrite lookup_insert in Hfl; case_decide;
          [ subst name; injection Hfl as <-; cbn [flag.Set_] in Hset | ]);
    try (rewrite lookup_empty in Hfl; discriminate).
  all: try (destruct (strconv.ParseInt s) as [?|n]; [discriminate|]);
       try (destruct (strconv.ParseUint s) as [?|n] eqn:Hn; [discriminate|];
            apply ParseUint_range in Hn);
       try (destruct (strconv.ParseBool s) as [b|]; [|discriminate]);
       injection Hset as <-; intros v Hv; try exact Hv; exact Hn.
Qed.

(** The port of a command line fits a [uint]. *)
Lemma commandLine_port_range args names v e :
  commandLine args = (names, v, e) -> 0 <= vars.port v < 2 ^ 64.
Proof.
  destruct (loop_uniform keeps_uint Init_formal) with (n := List.length args) (args := args)
    as (names' & W & e' & HP & HW).
  - by intros v0.
  - intros n1 w1 n2 w2 H1 H2 v0 Hv. apply H2, H1, Hv.
  - apply Init_formal_keeps_uint.
  - unfold commandLine, flag.parse. rewrite HW. intros [= _ <- _]. apply HP. cbn. lia.
Qed.

(** In [main], arguments that do not parse end in [usage]. *)
Lemma Init_parse_error args p names v err :
  commandLine args = (names, v, Some err) ->
  Init zeroConfig main_fs args p =
  (mkProcess (files p) (readonly p) (stdout p ++ [Literal usageStr])
     (stderr p ++ [ErrorText err]) (calls p) (clock p),
   Exit 0).
Proof.
  intros Hcl. pose proof (loop_not_ErrHelp (List.length args) args ∅ vars0) as Hh.
  fold (flag.parse Init_formal args ∅ vars0) in Hh. fold (commandLine args) in Hh.
  rewrite Hcl in Hh. cbn in Hh.
  destruct (amounts_exists args) as (o & names' & e & Ham).
  rewrite (commandLine_amounts _ _ _ _ Ham) in Hcl. injection Hcl as -> <- ->.
  rewrite (Init_resolve _ _ _ _ _ Ham). unfold resolve.
  destruct err; try reflexivity. done.
Qed.

(** A value that [ParseUint] does not take, given to the port flag in
    front of the arguments, ends the pass over the arguments. *)
Lemma commandLine_bad_port arg name s e rest :
  is_port name = true -> strconv.ParseUint s = inl e ->
  (flag.syntax arg = flag.IsFlag name None ->
   commandLine (arg :: s :: rest) = (∅, vars0, Some (InvalidValue s name e))) /\
  (flag.syntax arg = flag.IsFlag name (Some s) ->
   commandLine (arg :: rest) = (∅, vars0, Some (InvalidValue s name e))).
Proof.
  intros Hname Hs.
  assert (Hfl : exists fl, Init_formal !! name = Some fl /\ flag.IsBoolFlag fl = false /\
                           flag.Set_ fl s = inl e).
  { unfold is_port in Hname. apply orb_true_iff in Hname as [H|H];
      apply String.eqb_eq in H; subst name.
    - rewrite Init_formal_p. eexists. split; [done|]. split; [done|]. cbn. by rewrite Hs.
    - rewrite Init_formal_port. eexists. split; [done|]. split; [done|]. cbn. by rewrite Hs. }
  destruct Hfl as (fl & Hfl & Hbool & Hset).
  split; intros Hsyn; unfold commandLine, flag.parse; cbn [List.length flag.loop];
    unfold flag.parseOne; rewrite Hsyn; cbv beta iota; by rewrite Hfl, Hbool, Hset.
Qed.




















(** * The claims of the specification *)

(** ** C1: the command line and the file *)

(** C1, as amended.  A field that the command line supplies with a value
    other than the zero value of its type holds that value once [Init]
    returns, whether or not the file defines the field: a non-empty NATS
    URL, WebSocket path and resource path, a non-zero request timeout, a
    port above zero.  [--tls], [--tlscert] and [--tlskey] win with any
    value, and [-u]/[--headauth] with the empty string clears
    [HeaderAuth].  [v] holds the values of the first pass over the
    arguments, [names] the flags that were given. *)
Theorem command_line_wins args p q c' names v :
  commandLine args = (names, v, None) ->
  Init zeroConfig main_fs args p = (q, Return (c', None)) ->
  (NatsURL (vars.c v) <> "" -> NatsURL c' = NatsURL (vars.c v)) /\
  (RequestTimeout (vars.c v) <> 0 -> RequestTimeout c' = RequestTimeout (vars.c v)) /\
  (0 < vars.port v -> Port c' = vars.port v) /\
  (WSPath (vars.c v) <> "" -> WSPath c' = WSPath (vars.c v)) /\
  (APIPath (vars.c v) <> "" -> APIPath c' = APIPath (vars.c v)) /\
  ("tls" ∈ names -> TLS c' = TLS (vars.c v)) /\
  ("tlscert" ∈ names -> TLSCert c' = TLSCert (vars.c v)) /\
  ("tlskey" ∈ names -> TLSKey c' = TLSKey (vars.c v)) /\
  ("u" ∈ names \/ "headauth" ∈ names -> HeaderAuth c' = asked (vars.headauth v)).
Proof.
  intros Hcl HInit.
  destruct (Init_success _ _ _ _ _ _ Hcl HInit) as (o & -> & Hl & Hres).
  apply resolve_success in Hres as (Hport & _ & _ & _ & v2 & Hlay & ->).
  destruct Hl as (_ & _ & _ & _ & Htls & Hcert & Hkey & _).
  rewrite finish_layered. repeat split.
  - intros Hne. rewrite SetDefault_NatsURL, layered_NatsURL, (layers_NatsURL _ _ _ Hlay Hne).
    apply String.eqb_neq in Hne. by rewrite Hne.
  - intros Hne.
    rewrite SetDefault_RequestTimeout, layered_RequestTimeout,
      (layers_RequestTimeout _ _ _ Hlay Hne).
    apply Z.eqb_neq in Hne. by rewrite Hne.
  - intros Hpos. rewrite SetDefault_Port, layered_Port, (layers_port _ _ _ Hlay).
    pose proof Hpos as Hpos'. apply Z.ltb_lt in Hpos'. rewrite Hpos'.
    rewrite Z.mod_small by lia. destruct (_ =? 0) eqn:E; [apply Z.eqb_eq in E; lia|done].
  - intros Hne. rewrite SetDefault_WSPath, layered_WSPath, (layers_WSPath _ _ _ Hlay Hne).
    apply String.eqb_neq in Hne. by rewrite Hne.
  - intros Hne. rewrite SetDefault_APIPath, layered_APIPath, (layers_APIPath _ _ _ Hlay Hne).
    apply String.eqb_neq in Hne. by rewrite Hne.
  - intros Hin. rewrite SetDefault_TLS, layered_TLS. apply (layers_TLS _ _ _ Hlay). tauto.
  - intros Hin. rewrite SetDefault_TLSCert, layered_TLSCert.
    apply (layers_TLSCert _ _ _ Hlay). tauto.
  - intros Hin. rewrite SetDefault_TLSKey, layered_TLSKey.
    apply (layers_TLSKey _ _ _ Hlay). tauto.
  - intros Hin. rewrite SetDefault_HeaderAuth, layered_HeaderAuth, (layers_headauth _ _ _ Hlay).
    by rewrite bool_decide_eq_true_2.
Qed.

(** The file holds port 9000 and the command line gives [--port 9090]:
    the port is 9090. *)
Lemma command_line_wins_witness :
  exists q c',
    Init zeroConfig main_fs ["--config"; "cfg.json"; "--port"; "9090"]
      (boot {[ "cfg.json" := Contents (Some (json.Object [("port", json.Integer 9000)])) ]} ∅)
    = (q, Return (c', None)) /\
    Port c' = 9090.
Proof.
  assert (Hcl : exists names v,
             commandLine ["--config"; "cfg.json"; "--port"; "9090"] = (names, v, None) /\
             vars.port v = 9090).
  { eexists _, _. split; [vm_compute; reflexivity|reflexivity]. }
  destruct Hcl as (names & v & Hcl & Hport).
  assert (HInit : exists q c',
             Init zeroConfig main_fs ["--config"; "cfg.json"; "--port"; "9090"]
               (boot {[ "cfg.json" :=
                          Contents (Some (json.Object [("port", json.Integer 9000)])) ]} ∅)
             = (q, Return (c', None))).
  { eexists _, _. vm_compute. reflexivity. }
  destruct HInit as (q & c' & HInit). exists q, c'. split; [exact HInit|].
  destruct (command_line_wins _ _ _ _ _ _ Hcl HInit) as (_ & _ & H & _).
  rewrite H; [exact Hport|]. rewrite Hport. lia.
Defined.

(** C1, as stated, fails on the zero values.  The file holds port 9000 and
    a NATS URL; the command line gives [--port 0] and [--nats] with the
    empty string.  Both flags count as given, yet the port is the one of
    the file and the NATS URL is the default. *)
Lemma zero_values_lose :
  exists q c' names v,
    commandLine ["--config"; "cfg.json"; "--port"; "0"; "--nats"; ""] = (names, v, None) /\
    Init zeroConfig main_fs ["--config"; "cfg.json"; "--port"; "0"; "--nats"; ""]
      (boot {[ "cfg.json" :=
                 Contents (Some (json.Object [("port", json.Integer 9000);
                                              ("natsUrl", json.Str "nats://10.0.0.1:4222")])) ]}
            ∅)
    = (q, Return (c', None)) /\
    "port" ∈ names /\ "nats" ∈ names /\
    vars.port v = 0 /\ Port c' = 9000 /\
    NatsURL (vars.c v) = "" /\ NatsURL c' = "nats://127.0.0.1:4222".
Proof.
  eexists _, _,
    (fst (fst (commandLine ["--config"; "cfg.json"; "--port"; "0"; "--nats"; ""]))),
    (snd (fst (commandLine ["--config"; "cfg.json"; "--port"; "0"; "--nats"; ""]))).
  split; [vm_compute; reflexivity|].
  split; [vm_compute; reflexivity|].
  split; [by apply (bool_decide_unpack _); vm_compute|].
  split; [by apply (bool_decide_unpack _); vm_compute|].
  repeat split.
Qed.

(** ** C2: the header authentication has three states *)



(** ** C3: the check of the port *)

(** C3, as amended.  The check of the port is on the port of the command
    line as the flag package has parsed it, a number below 2^64.  When the
    arguments parse and that port is 65536 or more, [Init] ends the
    process as soon as the arguments are parsed, before it looks at the
    config file: it prints the message and then the usage text on
    standard error, and exits with status 1.  Arguments that do not parse
    do not get to the check: the error of the flag package goes to
    standard error, the usage text to standard output, and the exit
    status is 0.  A value that [ParseUint] does not take, given to [-p] or
    [--port] in front of the arguments, is such a case. *)
Theorem port_checked_first args p :
  (forall names v e, commandLine args = (names, v, e) -> 0 <= vars.port v < 2 ^ 64) /\
  (forall names v,
     commandLine args = (names, v, None) -> 2 ^ 16 <= vars.port v ->
     Init zeroConfig main_fs args p =
     (mkProcess (files p) (readonly p) (stdout p)
        ((stderr p ++ [InvalidPort (vars.port v)]) ++ [Literal usageStr])
        (calls p) (clock p),
      Exit 1)) /\
  (forall names v err,
     commandLine args = (names, v, Some err) ->
     Init zeroConfig main_fs args p =
     (mkProcess (files p) (readonly p) (stdout p ++ [Literal usageStr])
        (stderr p ++ [ErrorText err]) (calls p) (clock p),
      Exit 0)) /\
  (forall arg name s e rest,
     is_port name = true -> strconv.ParseUint s = inl e ->
     (flag.syntax arg = flag.IsFlag name None ->
      commandLine (arg :: s :: rest) = (∅, vars0, Some (InvalidValue s name e))) /\
     (flag.syntax arg = flag.IsFlag name (Some s) ->
      commandLine (arg :: rest) = (∅, vars0, Some (InvalidValue s name e)))).
Proof.
  split; [|split; [|split]].
  - intros names v e. apply commandLine_port_range.
  - intros names v Hcl Hport.
    destruct (Init_commandLine args p _ _ Hcl) as (o & -> & _ & ->).
    unfold resolve. apply Z.leb_le in Hport. by rewrite Hport.
  - intros names v err. apply Init_parse_error.
  - intros arg name s e rest. apply commandLine_bad_port.
Qed.

(** [--port 70000] is checked; [--port 18446744073709551616] does not
    parse. *)
Lemma port_checked_first_witness :
  Init zeroConfig main_fs ["--port"; "70000"] (boot ∅ ∅) =
  (mkProcess ∅ ∅ [] [InvalidPort 70000; Literal usageStr] [] 0, Exit 1) /\
  Init zeroConfig main_fs ["--port"; "18446744073709551616"] (boot ∅ ∅) =
  (mkProcess ∅ ∅ [Literal usageStr]
     [ErrorText (InvalidValue "18446744073709551616" "port" ErrRange)] [] 0, Exit 0).
Proof.
  split.
  - assert (Hcl : exists names v,
               commandLine ["--port"; "70000"] = (names, v, None) /\ vars.port v = 70000).
    { eexists _, _. split; [vm_compute; reflexivity|reflexivity]. }
    destruct Hcl as (names & v & Hcl & Hport).
    destruct (port_checked_first ["--port"; "70000"] (boot ∅ ∅)) as (_ & H & _).
    rewrite (H names v Hcl).
    + rewrite Hport. reflexivity.
    + rewrite Hport. lia.
  - destruct (port_checked_first ["--port"; "18446744073709551616"] (boot ∅ ∅))
      as (_ & _ & Hexit & Hbad).
    destruct (Hbad "--port" "port" "18446744073709551616" ErrRange [])
      as [Hcl _]; [reflexivity|vm_compute; reflexivity|].
    exact (Hexit _ _ _ (Hcl eq_refl)).
Defined.

(** C3, as stated, fails.  With [--port 70000] and a config file that
    cannot be read, [main] prints the usage text after the message, and
    the file is not what it stumbles over: the check comes before the
    layers are put together. *)
Lemma invalid_port_shows_usage :
  let env := mkEnvironment None None None None None false in
  let r := main ["--config"; "cfg.json"; "--port"; "70000"] env
             (boot {[ "cfg.json" := Unreadable ]} ∅) in
  snd r = Exit 1 /\
  stderr (fst r) = [InvalidPort 70000; Literal usageStr] /\
  Literal usageStr ∈ stderr (fst r).
Proof.
  split; [by vm_compute|]. split; [by vm_compute|].
  vm_compute. repeat constructor.
Qed.

(** ** C4: the stop of the service against the timeout *)

(** C4.  When the stop of the service does not return within
    [stopTimeout] (it takes longer, or never returns), the shutdown path
    calls [Stop], waits [stopTimeout] and no longer, and panics; and
    [main] does not come to a normal end in such surroundings. *)
Theorem shutdown_timeout_aborts env :
  Stop_overruns env ->
  (forall p,
     main_shutdown env p =
     (mkProcess (files p) (readonly p) (stdout p) (stderr p)
        (calls p ++ [Stop]) (clock p + stopTimeout),
      Panic "Shutdown timed out")) /\
  (forall args p, snd (main args env p) <> Return (inl tt)).
Proof.
  intros Hover.
  assert (Hs : forall p,
     main_shutdown env p =
     (mkProcess (files p) (readonly p) (stdout p) (stderr p)
        (calls p ++ [Stop]) (clock p + stopTimeout),
      Panic "Shutdown timed out")).
  { intros p. unfold main_shutdown, Stop_overruns, select in *. cbn [fst snd].
    destruct (Stop_takes env) as [d|]; [|reflexivity].
    destruct (d <? stopTimeout) eqn:E1; [apply Z.ltb_lt in E1; lia|].
    destruct (stopTimeout <? d) eqn:E2; [reflexivity|apply Z.ltb_ge in E2; lia]. }
  split; [exact Hs|]. intros args p. unfold main, bind.
  destruct (Init zeroConfig main_fs args p) as [q [[cfg [err|]]|code|msg]]; try done.
  cbn [fst snd]. rewrite main_serve_started.
  destruct (Start_returns env); [done|]. unfold bind.
  destruct (select _ _ _ _) as [q' [[[]|[]]|code|msg]]; try done.
  by rewrite Hs.
Qed.

(** A signal after 3 s, a service whose stop takes 11 s: [main] panics
    10 s after the signal. *)
Lemma shutdown_timeout_aborts_witness :
  let env := mkEnvironment None (Some 3000000000) None None (Some 11000000000) false in
  snd (main [] env (boot ∅ ∅)) = Panic "Shutdown timed out" /\
  clock (fst (main [] env (boot ∅ ∅))) = 13000000000 /\
  snd (main [] env (boot ∅ ∅)) <> Return (inl tt).
Proof.
  intros env. split; [by vm_compute|]. split; [by vm_compute|].
  apply (shutdown_timeout_aborts env). vm_compute. reflexivity.
Defined.

(** ** C5: the failure channel of the service *)

(** C5, as amended.  The service is running ([Init] has returned a
    configuration and [Start] no error) and what it sends on its channel,
    after [t] ns, is taken before any signal.  When it sends nil, [main]
    goes on exactly as it does when a signal arrives at that time: [Stop]
    is called, once, and raced against the timeout; [main] returns when
    [Stop] returns within less than [stopTimeout], [d] ns later, and
    panics with "Shutdown timed out" after [stopTimeout] when [Stop]
    takes longer or does not return.  When it sends an error, [main]
    prints the error on standard error and exits at once with status 1:
    [Stop] is not called and nothing is raced against the timeout. *)
Theorem StopChannel_nil_is_a_signal args env p q cfg t :
  Init zeroConfig main_fs args p = (q, Return (cfg, None)) ->
  Start_returns env = None ->
  StopChannel_after env = Some t -> StopChannel_first env ->
  (StopChannel_sends env = None ->
   main args env p = main args (swapped env) p /\
   calls (fst (main args env p)) = (calls (served cfg q) ++ [Stop])%list /\
   (forall d, Stop_takes env = Some d -> d < stopTimeout ->
      main args env p = (later_on (served cfg q) [Stop] [] (t + d), Return (inl tt))) /\
   (Stop_overruns env ->
      main args env p =
      (later_on (served cfg q) [Stop] [] (t + stopTimeout), Panic "Shutdown timed out"))) /\
  (forall err,
     StopChannel_sends env = Some err ->
     main args env p = (later_on (served cfg q) [] [ErrorText err] t, Exit 1)).
Proof.
  intros HInit Hstart Hchan Hfirst.
  assert (Hsel : select (signal_after env, ret tt)
                   (StopChannel_after env,
                    match StopChannel_sends env with
                    | Some err => printAndDie (ErrorText err) false
                    | None => ret tt
                    end) (tie env) (served cfg q)
                 = (x <- match StopChannel_sends env with
                         | Some err => printAndDie (ErrorText err) false
                         | None => ret tt
                         end ;; ret (inl x)) (later_on (served cfg q) [] [] t)).
  { unfold StopChannel_first in Hfirst. rewrite Hchan in Hfirst.
    unfold select, later_on. cbn [fst snd]. rewrite Hchan, !app_nil_r.
    destruct (signal_after env) as [s|]; [|reflexivity].
    destruct Hfirst as [Hlt|[<- Htie]].
    - destruct (s <? t) eqn:E1; [apply Z.ltb_lt in E1; lia|].
      apply Z.ltb_lt in Hlt. by rewrite Hlt.
    - by rewrite Z.ltb_irrefl, Htie. }
  split.
  - intros Hnil.
    assert (Hmain : main args env p = main_shutdown env (later_on (served cfg q) [] [] t)).
    { unfold main, bind. rewrite HInit. cbn [fst snd].
      rewrite main_serve_started, Hstart. unfold bind. rewrite Hsel, Hnil. reflexivity. }
    split; [|split; [|split]].
    + unfold main, bind. rewrite HInit. cbn [fst snd].
      rewrite !main_serve_started. cbn [Start_returns swapped]. rewrite Hstart.
      unfold bind. cbn [signal_after StopChannel_after StopChannel_sends tie swapped].
      rewrite Hnil. by rewrite select_sym.
    + rewrite Hmain. unfold main_shutdown, select, bind, later_on. cbn [fst snd].
      destruct (Stop_takes env) as [d|]; cbn; rewrite ?app_nil_r; [|done].
      repeat match goal with |- context [if ?b then _ else _] => destruct b end; cbn; done.
    + intros d Hstop Hd. rewrite Hmain.
      unfold main_shutdown, select, bind. cbn [fst snd]. rewrite Hstop.
      apply Z.ltb_lt in Hd. rewrite Hd. unfold later_on, call_, wait, ret, served. cbn.
      by rewrite !app_nil_r, Z.add_assoc.
    + intros Hover. rewrite Hmain. unfold Stop_overruns in Hover.
      unfold main_shutdown, select, bind. cbn [fst snd].
      destruct (Stop_takes env) as [d|].
      * destruct (d <? stopTimeout) eqn:E1; [apply Z.ltb_lt in E1; lia|].
        apply Z.ltb_lt in Hover. rewrite Hover.
        unfold later_on, call_, wait, panic, served. cbn.
        by rewrite !app_nil_r, Z.add_assoc.
      * unfold later_on, call_, wait, panic, served. cbn.
        by rewrite !app_nil_r, Z.add_assoc.
  - intros err Herr. unfold main, bind. rewrite HInit. cbn [fst snd].
    rewrite main_serve_started, Hstart. unfold bind. rewrite Hsel, Herr.
    unfold later_on, printAndDie, bind, os.Stderr, os.Exit, ret. cbn.
    by rewrite !app_nil_r.
Qed.

(** The channel is closed after 5 ns, a signal would come after 7 ns, the
    stop takes 1 ns: the same run as with the two the other way round,
    and [main] returns after 6 ns. *)
Lemma StopChannel_nil_is_a_signal_witness :
  let env := mkEnvironment None (Some 7) (Some 5) None (Some 1) false in
  main [] env (boot ∅ ∅) = main [] (swapped env) (boot ∅ ∅) /\
  main [] env (boot ∅ ∅) =
  (later_on (served (SetDefault zeroConfig) (boot ∅ ∅)) [Stop] [] (5 + 1), Return (inl tt)).
Proof.
  intros env.
  destruct (StopChannel_nil_is_a_signal [] env (boot ∅ ∅) (boot ∅ ∅) (SetDefault zeroConfig) 5)
    as [H _].
  - vm_compute. reflexivity.
  - reflexivity.
  - reflexivity.
  - left. reflexivity.
  - destruct (H eq_refl) as (Hsame & _ & Hstop & _). split; [exact Hsame|].
    apply Hstop; reflexivity.
Defined.

(** C5, as stated, fails.  The service reports an error after 5 ns and no
    signal arrives: [main] exits with status 1 and the calls it has made
    are the four up to [Start]; [Stop] is not among them, while it is when
    a signal arrives instead. *)
Lemma service_error_skips_Stop :
  let env := mkEnvironment None None (Some 5) (Some (ServiceError "connection lost"))
               (Some 1) false in
  snd (main [] env (boot ∅ ∅)) = Exit 1 /\
  calls (fst (main [] env (boot ∅ ∅))) =
  [ NewStdLogger false false;
    NewService "nats://127.0.0.1:4222" 5000000000
      (server.mkConfig 8080 "/" "/api/" None false "" "");
    SetLogger; Start ] /\
  Stop ∈ calls (fst (main [] (swapped env) (boot ∅ ∅))).
Proof.
  split; [by vm_compute|]. split; [by vm_compute|].
  vm_compute. repeat constructor.
Qed.

(** ** C6: what holds of every configuration [Init] returns *)

(** C6, as amended.  When [Init] returns without an error, the NATS URL is
    not empty, the request timeout is not zero and the port lies in
    1..65535. *)
Theorem resolved_fields_are_set args p q c' :
  Init zeroConfig main_fs args p = (q, Return (c', None)) ->
  NatsURL c' <> "" /\ RequestTimeout c' <> 0 /\ 1 <= Port c' <= 65535.
Proof.
  intros HInit. destruct (Init_returns _ _ _ _ HInit) as (names & v & Hcl).
  destruct (Init_success _ _ _ _ _ _ Hcl HInit) as (o & -> & Hl & Hres).
  apply resolve_success in Hres as (Hport & _ & _ & _ & v2 & Hlay & ->).
  rewrite finish_layered. repeat split.
  - rewrite SetDefault_NatsURL.
    destruct (String.eqb _ "") eqn:E; [done|]. by apply String.eqb_neq in E.
  - rewrite SetDefault_RequestTimeout.
    destruct (_ =? 0) eqn:E; [done|]. by apply Z.eqb_neq in E.
  - rewrite SetDefault_Port, layered_Port, (layers_port _ _ _ Hlay).
    pose proof (layers_Port_range _ _ _ Hlay).
    destruct (0 <? _) eqn:E1; [apply Z.ltb_lt in E1; rewrite Z.mod_small by lia|];
      destruct (_ =? 0) eqn:E2; try apply Z.eqb_neq in E2; lia.
  - rewrite SetDefault_Port, layered_Port, (layers_port _ _ _ Hlay).
    pose proof (layers_Port_range _ _ _ Hlay).
    destruct (0 <? _) eqn:E1; [apply Z.ltb_lt in E1; rewrite Z.mod_small by lia|];
      destruct (_ =? 0) eqn:E2; try apply Z.eqb_neq in E2; lia.
Qed.

Lemma resolved_fields_are_set_witness :
  exists q c',
    Init zeroConfig main_fs ["-r"; "-5"] (boot ∅ ∅) = (q, Return (c', None)) /\
    NatsURL c' <> "" /\ RequestTimeout c' <> 0 /\ 1 <= Port c' <= 65535.
Proof.
  assert (HInit : exists q c',
             Init zeroConfig main_fs ["-r"; "-5"] (boot ∅ ∅) = (q, Return (c', None))).
  { eexists _, _. vm_compute. reflexivity. }
  destruct HInit as (q & c' & HInit). exists q, c'. split; [exact HInit|].
  exact (resolved_fields_are_set _ _ _ _ HInit).
Defined.

(** C6, as stated, fails: [-r -5] is taken as it is, and the request
    timeout that [Init] returns is not positive. *)
Lemma negative_timeout_is_kept :
  exists q c',
    Init zeroConfig main_fs ["-r"; "-5"] (boot ∅ ∅) = (q, Return (c', None)) /\
    RequestTimeout c' = -5 /\ ~ (0 < RequestTimeout c').
Proof.
  eexists _, _. split; [vm_compute; reflexivity|]. split; [reflexivity|].
  vm_compute. discriminate.
Qed.

(** ** C7: the bootstrap file *)



(** ** C8: the bootstrap file read back *)

(** C8, as amended.  With [--config] at a path that holds no file and at
    which a file can be created, and no other argument, [Init] leaves a
    JSON document at that path, and a second run on that file returns the
    same configuration and changes nothing. *)
Theorem bootstrap_round_trip path p :
  path <> "" -> files p !! path = None -> path ∉ readonly p ->
  exists q c1 doc,
    Init zeroConfig main_fs ["--config"; path] p = (q, Return (c1, None)) /\
    files q !! path = Some (Contents (Some doc)) /\
    Init zeroConfig main_fs ["--config"; path] q = (q, Return (c1, None)).
Proof.
  intros Hne Hfile Hro.
  set (v := overrides.apply (only_config path) vars0).
  exists (written path (bootstrap v) p),
         (finish {["config"]} (vars.set_c SetDefault v)), (bootstrap v).
  assert (Hq : files (written path (bootstrap v) p) !! path
               = Some (Contents (Some (bootstrap v)))).
  { unfold written. cbn [files]. apply lookup_insert_eq. }
  split; [|split].
  - rewrite (Init_resolve _ _ _ _ _ (amounts_config path)).
    rewrite (resolve_bootstrap (only_config path) {["config"]} p eq_refl eq_refl Hne Hfile).
    fold v. by rewrite bool_decide_eq_false_2.
  - exact Hq.
  - rewrite (Init_resolve _ _ _ _ _ (amounts_config path)).
    rewrite (resolve_file (only_config path) {["config"]} _ eq_refl eq_refl Hne
               (Some (bootstrap v)) (SetDefault zeroConfig) Hq
               (Unmarshal_bootstrap_defaults path)).
    fold v. by rewrite finish_defaults.
Qed.

Lemma bootstrap_round_trip_witness :
  exists q c1 doc,
    Init zeroConfig main_fs ["--config"; "newfile.json"] (boot ∅ ∅) = (q, Return (c1, None)) /\
    files q !! "newfile.json" = Some (Contents (Some doc)) /\
    Init zeroConfig main_fs ["--config"; "newfile.json"] q = (q, Return (c1, None)).
Proof.
  apply (bootstrap_round_trip "newfile.json" (boot ∅ ∅)).
  - discriminate.
  - reflexivity.
  - apply (bool_decide_unpack _). vm_compute. exact I.
Defined.

(** C8, as stated, fails when the file cannot be created (the write is
    best effort): [Init] returns, and no file is at the path. *)
Lemma unwritable_bootstrap_leaves_no_file :
  exists q c1,
    Init zeroConfig main_fs ["--config"; "newfile.json"] (boot ∅ {["newfile.json"]})
    = (q, Return (c1, None)) /\
    files q !! "newfile.json" = None.
Proof. eexists _, _. split; [vm_compute; reflexivity|]. reflexivity. Qed.

(** ** C9: port 0 on the command line *)




(** ** C10: the bootstrap file and the port of the command line *)

(** C10.  With a port N in 1..65535 on the command line and a config file
    named that does not exist and can be created, the file [Init] writes
    holds port 8080, and the configuration [Init] returns holds N. *)
Theorem bootstrap_ignores_port args p names v N :
  commandLine args = (names, v, None) ->
  vars.port v = N -> 1 <= N <= 65535 ->
  vars.showHelp v = false -> vars.configFile v <> "" ->
  files p !! vars.configFile v = None -> vars.configFile v ∉ readonly p ->
  exists q c',
    Init zeroConfig main_fs args p = (q, Return (c', None)) /\
    files q !! vars.configFile v = Some (Contents (Some (bootstrap v))) /\
    member "port" (Some (bootstrap v)) = Some (json.Integer 8080) /\
    Port c' = N.
Proof.
  intros Hcl HN Hrange Hhelp Hcf Hfile Hro.
  destruct (Init_commandLine args p _ _ Hcl) as (o & -> & _ & ->).
  rewrite resolve_bootstrap by (done || lia).
  rewrite bool_decide_eq_false_2 by done.
  eexists _, _. split; [reflexivity|]. split; [|split].
  - unfold written. cbn [files]. apply lookup_insert_eq.
  - unfold member, bootstrap, json.encode. rewrite SetDefault_Port.
    by destruct (Debug _).
  - rewrite finish_layered, SetDefault_Port, layered_Port.
    cbn [vars.port vars.set_c]. fold (vars.port (overrides.apply o vars0)).
    rewrite HN. destruct (0 <? N) eqn:E; [|apply Z.ltb_ge in E; lia].
    rewrite Z.mod_small by lia. destruct (N =? 0) eqn:E2; [apply Z.eqb_eq in E2; lia|done].
Qed.

Lemma bootstrap_ignores_port_witness :
  exists q c',
    Init zeroConfig main_fs ["--config"; "newfile.json"; "--port"; "9090"] (boot ∅ ∅)
    = (q, Return (c', None)) /\
    member "port" (match files q !! "newfile.json" with
                   | Some (Contents data) => data
                   | _ => None
                   end) = Some (json.Integer 8080) /\
    Port c' = 9090.
Proof.
  assert (Hcl : exists names v,
             commandLine ["--config"; "newfile.json"; "--port"; "9090"] = (names, v, None) /\
             vars.port v = 9090 /\ vars.showHelp v = false /\
             vars.configFile v = "newfile.json").
  { eexists _, _. split; [vm_compute; reflexivity|]. repeat split. }
  destruct Hcl as (names & v & Hcl & Hport & Hhelp & Hcf).
  destruct (bootstrap_ignores_port ["--config"; "newfile.json"; "--port"; "9090"]
              (boot ∅ ∅) names v 9090 Hcl Hport) as (q & c' & HInit & Hq & Hm & HP).
  - lia.
  - exact Hhelp.
  - rewrite Hcf. discriminate.
  - rewrite Hcf. reflexivity.
  - rewrite Hcf. apply (bool_decide_unpack _). vm_compute. exact I.
  - exists q, c'. split; [exact HInit|]. rewrite Hcf in Hq. rewrite Hq. split; [exact Hm|exact HP].
Defined.

(** * Further properties of the code *)

(** ** The command line *)

(** X1.  When the arguments do not parse, [Init] does not return: the
    error of the flag package goes to standard error, the usage text goes
    to standard output, and the process exits with status 0, because
    [main] installs [usage] as [fs.Usage] and [usage] exits before the flag
    set gets to its own exit.  No file is touched. *)
Theorem parse_error_exits_0 args p names v err :
  commandLine args = (names, v, Some err) ->
  Init zeroConfig main_fs args p =
  (mkProcess (files p) (readonly p) (stdout p ++ [Literal usageStr])
     (stderr p ++ [ErrorText err]) (calls p) (clock p),
   Exit 0).
Proof.
  intros Hcl. pose proof (loop_not_ErrHelp (List.length args) args ∅ vars0) as Hh.
  fold (flag.parse Init_formal args ∅ vars0) in Hh. fold (commandLine args) in Hh.
  rewrite Hcl in Hh. cbn in Hh.
  destruct (amounts_exists args) as (o & names' & e & Ham).
  rewrite (commandLine_amounts _ _ _ _ Ham) in Hcl. injection Hcl as -> <- ->.
  rewrite (Init_resolve _ _ _ _ _ Ham). unfold resolve.
  destruct err; try reflexivity. done.
Qed.

Lemma parse_error_exits_0_witness :
  Init zeroConfig main_fs ["--bogus"] (boot ∅ ∅) =
  (mkProcess ∅ ∅ [Literal usageStr] [ErrorText (FlagNotDefined "bogus")] [] 0, Exit 0).
Proof.
  assert (Hcl : exists names v,
             commandLine ["--bogus"] = (names, v, Some (FlagNotDefined "bogus"))).
  { eexists _, _. vm_compute. reflexivity. }
  destruct Hcl as (names & v & Hcl).
  exact (parse_error_exits_0 ["--bogus"] (boot ∅ ∅) names v _ Hcl).
Defined.

(** X2.  With [-h] or [--help] among arguments that parse and a port below
    65536, [Init] prints the usage text on standard output and exits with
    status 0 before it looks at the config file. *)
Theorem help_exits_0 args p names v :
  commandLine args = (names, v, None) ->
  vars.port v < 2 ^ 16 -> vars.showHelp v = true ->
  Init zeroConfig main_fs args p =
  (mkProcess (files p) (readonly p) (stdout p ++ [Literal usageStr])
     (stderr p) (calls p) (clock p),
   Exit 0).
Proof.
  intros Hcl Hport Hhelp. destruct (Init_commandLine args p _ _ Hcl) as (o & -> & _ & ->).
  unfold resolve. apply Z.leb_gt in Hport. by rewrite Hport, Hhelp.
Qed.

Lemma help_exits_0_witness :
  Init zeroConfig main_fs ["-c"; "cfg.json"; "--help"] (boot {[ "cfg.json" := Unreadable ]} ∅) =
  (mkProcess {[ "cfg.json" := Unreadable ]} ∅ [Literal usageStr] [] [] 0, Exit 0).
Proof.
  assert (Hcl : exists names v,
             commandLine ["-c"; "cfg.json"; "--help"] = (names, v, None) /\
             vars.port v = 0 /\ vars.showHelp v = true).
  { eexists _, _. split; [vm_compute; reflexivity|]. split; reflexivity. }
  destruct Hcl as (names & v & Hcl & Hport & Hhelp).
  rewrite (help_exits_0 _ (boot {[ "cfg.json" := Unreadable ]} ∅) names v Hcl).
  - reflexivity.
  - rewrite Hport. lia.
  - exact Hhelp.
Defined.

(** X3.  The second [fs.Parse(args)], whose error [Init] does not look at,
    cannot fail: on arguments that parsed the first time it ends without
    an error whatever the file has put in the receiver, it adds no flag to
    the ones that are set, and it leaves the four locals as the first pass
    left them. *)
Theorem second_parse_cannot_fail args names v cf :
  commandLine args = (names, v, None) ->
  exists c',
    flag.parse Init_formal args names (vars.set_c (fun _ => cf) v) =
    (names,
     vars.mk c' (vars.showHelp v) (vars.configFile v) (vars.port v) (vars.headauth v),
     None).
Proof.
  intros Hcl. destruct (amounts_exists args) as (o & names' & e & Ham).
  rewrite (commandLine_amounts _ _ _ _ Ham) in Hcl. injection Hcl as -> <- ->.
  destruct Ham as [_ H]. rewrite H, (idemp_L (∪)). eexists.
  unfold overrides.apply.
  cbn [vars.showHelp vars.configFile vars.port vars.headauth vars.set_c vars.c].
  rewrite !over_over. reflexivity.
Qed.

Lemma second_parse_cannot_fail_witness :
  exists names c',
    flag.parse Init_formal ["-p"; "81"; "-c"; "cfg.json"] names
      (vars.mk (set_Port 9000 zeroConfig) false "cfg.json" 81 "") =
    (names, vars.mk c' false "cfg.json" 81 "", None).
Proof.
  assert (Hcl : exists names v,
             commandLine ["-p"; "81"; "-c"; "cfg.json"] = (names, v, None) /\
             vars.showHelp v = false /\ vars.configFile v = "cfg.json" /\
             vars.port v = 81 /\ vars.headauth v = "").
  { eexists _, _. split; [vm_compute; reflexivity|]. repeat split. }
  destruct Hcl as (names & v & Hcl & Hh & Hcf & Hp & Hu).
  destruct (second_parse_cannot_fail _ names v (set_Port 9000 zeroConfig) Hcl) as (c' & H).
  exists names, c'. destruct v as [c0 h path port u].
  cbn [vars.showHelp vars.configFile vars.port vars.headauth] in Hh, Hcf, Hp, Hu.
  subst h path port u. exact H.
Defined.

(** X4.  An argument that is not a flag (it is shorter than two
    characters or does not start with a dash) or that is [--] ends the
    pass over the arguments: [Init] does what it does with no argument at
    all, whatever follows it, be it a flag that is not defined or a port
    out of range. *)
Theorem flags_after_a_positional_are_ignored x rest p :
  flag.syntax x = flag.NotAFlag \/ flag.syntax x = flag.Terminator ->
  Init zeroConfig main_fs (x :: rest) p = Init zeroConfig main_fs [] p.
Proof.
  intros Hx. destruct (amounts_exists []) as (o & names & e & Ham).
  assert (Ham' : amounts (x :: rest) o names e).
  { destruct Ham as [Hl H]. split; [done|]. intros a v. by rewrite parse_stops. }
  by rewrite (Init_resolve _ _ _ _ _ Ham), (Init_resolve _ _ _ _ _ Ham').
Qed.

Lemma flags_after_a_positional_are_ignored_witness :
  Init zeroConfig main_fs [""; "--port"; "70000"] (boot ∅ ∅) =
  Init zeroConfig main_fs [] (boot ∅ ∅).
Proof.
  apply (flags_after_a_positional_are_ignored "" ["--port"; "70000"] (boot ∅ ∅)).
  left. reflexivity.
Defined.

(** X5.  The short and the long name of a flag that takes a string are
    bound to the same variable: [-n x] and [--nats x] in front of any
    arguments make [Init] do the same, and so for [-w]/[--wspath],
    [-a]/[--apipath], [-c]/[--config] and [-u]/[--headauth]. *)
Theorem short_is_long s l x args p :
  In (s, l) short_long ->
  Init zeroConfig main_fs (("-" ++ s) :: x :: args) p =
  Init zeroConfig main_fs (("--" ++ l) :: x :: args) p.
Proof.
  intros Hin.
  assert (H : exists set,
     flag.syntax ("-" ++ s) = flag.IsFlag s None /\
     flag.syntax ("--" ++ l) = flag.IsFlag l None /\
     Init_formal !! s = Some (flag.mkFlag s false (fun y => inr (set y))) /\
     Init_formal !! l = Some (flag.mkFlag l false (fun y => inr (set y))) /\
     (("u" = s \/ "headauth" = s) <-> ("u" = l \/ "headauth" = l))).
  { destruct Hin as [[= <- <-]|[[= <- <-]|[[= <- <-]|[[= <- <-]|[[= <- <-]|[]]]]]].
    - exists (fun y => vars.set_c (set_NatsURL y)). repeat split; intros [?|?]; done.
    - exists (fun y => vars.set_c (set_WSPath y)). repeat split; intros [?|?]; done.
    - exists (fun y => vars.set_c (set_APIPath y)). repeat split; intros [?|?]; done.
    - exists vars.set_configFile. repeat split; intros [?|?]; done.
    - exists vars.set_headauth. repeat split; tauto. }
  destruct H as (set & Hs & Hl & Hfs & Hfl & Hu).
  destruct (amounts_exists args) as (o & names & e & Ham).
  destruct (amounts_after [ "-" ++ s; x] args s (set x) o names e) as (o1 & Ho1 & Ham1);
    [apply (parse_string_flag _ s set x args Hs Hfs)
    |by apply (Init_formal_overriding s _ x _ Hfs)|done|].
  destruct (amounts_after [ "--" ++ l; x] args l (set x) o names e) as (o2 & Ho2 & Ham2);
    [apply (parse_string_flag _ l set x args Hl Hfl)
    |by apply (Init_formal_overriding l _ x _ Hfl)|done|].
  cbn [app] in Ham1, Ham2.
  rewrite (Init_resolve _ _ _ _ _ Ham1), (Init_resolve _ _ _ _ _ Ham2).
  apply resolve_ext.
  - intros v. by rewrite !apply_seq, Ho1, Ho2.
  - rewrite !elem_of_union, !elem_of_singleton. tauto.
Qed.

Lemma short_is_long_witness :
  Init zeroConfig main_fs ["-c"; "cfg.json"; "--tls"] (boot ∅ ∅) =
  Init zeroConfig main_fs ["--config"; "cfg.json"; "--tls"] (boot ∅ ∅).
Proof.
  apply (short_is_long "c" "config" "cfg.json" ["--tls"] (boot ∅ ∅)).
  right; right; right; left. reflexivity.
Defined.

(** X6.  Defining the flags stores their defaults in the variables they
    are bound to, so [Init] forgets what its receiver held in the fields
    that a flag is bound to (NATS URL, request timeout, the two paths and
    the three TLS fields): only [Debug], [Port] and [HeaderAuth] of the
    receiver can matter to the run. *)
Theorem Init_resets_receiver c args p :
  Init c main_fs args p = Init (kept c) main_fs args p.
Proof. unfold Init. by rewrite Init_flags_kept. Qed.

(** X7.  The error handling of the flag set and its [Usage] are for
    arguments that do not parse: when they parse, [Init] on a flag set
    fresh from [flag.NewFlagSet], of any name and error handling, does
    what it does in [main]. *)
Theorem error_handling_is_for_parse_errors name h args p names v :
  commandLine args = (names, v, None) ->
  Init zeroConfig (flag.NewFlagSet name h) args p = Init zeroConfig main_fs args p.
Proof.
  intros Hcl. destruct (amounts_exists args) as (o & names' & e & Ham).
  rewrite (commandLine_amounts _ _ _ _ Ham) in Hcl. injection Hcl as -> <- ->.
  by rewrite (Init_resolve _ _ _ _ _ Ham), (Init_resolve_fresh _ _ _ _ _ _ Ham).
Qed.

Lemma error_handling_is_for_parse_errors_witness :
  Init zeroConfig (flag.NewFlagSet "test" flag.ContinueOnError) ["--tls"; "-p"; "70000"]
    (boot ∅ ∅) =
  Init zeroConfig main_fs ["--tls"; "-p"; "70000"] (boot ∅ ∅).
Proof.
  assert (Hcl : exists names v, commandLine ["--tls"; "-p"; "70000"] = (names, v, None)).
  { eexists _, _. vm_compute. reflexivity. }
  destruct Hcl as (names & v & Hcl).
  exact (error_handling_is_for_parse_errors "test" flag.ContinueOnError _ (boot ∅ ∅) _ _ Hcl).
Defined.

(** X8.  The call of [printAndDie] for a parse error is reached on a flag
    set that continues on errors (in [main], [fs.Usage] has exited before).
    On a fresh flag set with [flag.ContinueOnError], arguments that do not
    parse make the flag package print its error and its own usage on
    standard error, and then [Init] prints "error parsing arguments" and
    the usage text there too, and exits with status 1.  With
    [flag.ExitOnError] and no [Usage] installed the flag package exits
    with status 2 by itself. *)
Theorem parse_error_on_a_fresh_flag_set name args p names v err :
  commandLine args = (names, v, Some err) ->
  Init zeroConfig (flag.NewFlagSet name flag.ContinueOnError) args p =
  (mkProcess (files p) (readonly p) (stdout p)
     (stderr p ++ [ErrorText err; DefaultUsage; ErrorParsingArguments err; Literal usageStr])
     (calls p) (clock p),
   Exit 1) /\
  Init zeroConfig (flag.NewFlagSet name flag.ExitOnError) args p =
  (mkProcess (files p) (readonly p) (stdout p)
     (stderr p ++ [ErrorText err; DefaultUsage]) (calls p) (clock p),
   Exit 2).
Proof.
  intros Hcl. pose proof (loop_not_ErrHelp (List.length args) args ∅ vars0) as Hh.
  fold (flag.parse Init_formal args ∅ vars0) in Hh. fold (commandLine args) in Hh.
  rewrite Hcl in Hh. cbn in Hh.
  destruct (amounts_exists args) as (o & names' & e & Ham).
  rewrite (commandLine_amounts _ _ _ _ Ham) in Hcl. injection Hcl as -> <- ->.
  destruct Ham as [_ H]. unfold Init. rewrite !Init_flags_fresh.
  cbn [fst snd]. unfold flag.Parse. cbn [flag.formal flag.actual]. rewrite H.
  unfold bind, flag.usage, printAndDie, bind, os.Stderr, os.Exit, ret.
  cbn [flag.Usage flag.errorHandling fst snd].
  destruct err; try done; cbn; rewrite <- ?app_assoc; done.
Qed.

Lemma parse_error_on_a_fresh_flag_set_witness :
  Init zeroConfig (flag.NewFlagSet "test" flag.ContinueOnError) ["-p"; "http"] (boot ∅ ∅) =
  (mkProcess ∅ ∅ []
     [ErrorText (InvalidValue "http" "p" ErrSyntax); DefaultUsage;
      ErrorParsingArguments (InvalidValue "http" "p" ErrSyntax); Literal usageStr] [] 0,
   Exit 1).
Proof.
  assert (Hcl : exists names v,
             commandLine ["-p"; "http"] = (names, v, Some (InvalidValue "http" "p" ErrSyntax))).
  { eexists _, _. vm_compute. reflexivity. }
  destruct Hcl as (names & v & Hcl).
  exact (proj1 (parse_error_on_a_fresh_flag_set "test" _ (boot ∅ ∅) names v _ Hcl)).
Defined.

(** ** The resolution *)

(** X9.  With no config path on a command line that parses, a port below
    65536 and no request for help, [Init] reads and writes no file and
    prints nothing: it returns the values of the command line, with the
    defaults of [SetDefault] for an empty NATS URL and a zero request
    timeout, debug off, and as the configuration of the server the values
    of the command line handed to [server.Config.SetDefault]. *)
Theorem no_config_path args p names v :
  commandLine args = (names, v, None) ->
  vars.port v < 2 ^ 16 -> vars.showHelp v = false -> vars.configFile v = "" ->
  exists c',
    Init zeroConfig main_fs args p = (p, Return (c', None)) /\
    NatsURL c' = (if String.eqb (NatsURL (vars.c v)) "" then "nats://127.0.0.1:4222"
                  else NatsURL (vars.c v)) /\
    RequestTimeout c' = (if RequestTimeout (vars.c v) =? 0 then 5
                         else RequestTimeout (vars.c v)) /\
    Debug c' = false /\
    server_Config c' =
    server.SetDefault
      (server.mkConfig (if 0 <? vars.port v then vars.port v else 0)
         (WSPath (vars.c v)) (APIPath (vars.c v))
         (if bool_decide ("u" ∈ names \/ "headauth" ∈ names)
          then asked (vars.headauth v) else None)
         (TLS (vars.c v)) (TLSCert (vars.c v)) (TLSKey (vars.c v))).
Proof.
  intros Hcl Hport Hhelp Hcf. destruct (Init_commandLine args p _ _ Hcl) as (o & -> & _ & ->).
  exists (finish names (overrides.apply o vars0)). split.
  - unfold resolve. apply Z.leb_gt in Hport. by rewrite Hport, Hhelp, Hcf.
  - rewrite finish_layered.
    rewrite SetDefault_NatsURL, SetDefault_RequestTimeout, SetDefault_Debug, SetDefault_server.
    rewrite layered_NatsURL, layered_RequestTimeout, layered_Debug.
    repeat split. f_equal. unfold layered.
    destruct (0 <? _) eqn:E.
    + apply Z.ltb_lt in E. rewrite Z.mod_small by lia. by destruct (bool_decide _).
    + by destruct (bool_decide _).
Qed.

Lemma no_config_path_witness :
  exists c',
    Init zeroConfig main_fs ["--nats"; "nats://10.0.0.1:4222"; "-p"; "81"] (boot ∅ ∅)
    = (boot ∅ ∅, Return (c', None)) /\
    NatsURL c' = "nats://10.0.0.1:4222" /\ RequestTimeout c' = 5 /\ Debug c' = false.
Proof.
  assert (Hcl : exists names v,
             commandLine ["--nats"; "nats://10.0.0.1:4222"; "-p"; "81"] = (names, v, None) /\
             vars.port v = 81 /\ vars.showHelp v = false /\ vars.configFile v = "" /\
             NatsURL (vars.c v) = "nats://10.0.0.1:4222" /\ RequestTimeout (vars.c v) = 0).
  { eexists _, _. split; [vm_compute; reflexivity|]. repeat split. }
  destruct Hcl as (names & v & Hcl & Hport & Hhelp & Hcf & Hn & Hr).
  destruct (no_config_path _ (boot ∅ ∅) names v Hcl) as (c' & HI & HN & HR & HD & _).
  - rewrite Hport. lia.
  - exact Hhelp.
  - exact Hcf.
  - exists c'. rewrite HN, HR, Hn, Hr. repeat split; [exact HI|exact HD].
Defined.

(** X10.  [Init] deletes and changes no file and no permission: every file
    is still there with its contents when [Init] is over, and the one file
    that can be new is the bootstrap file at the path of [-c]/[--config]. *)
Theorem Init_keeps_files args p :
  (forall path x,
     files p !! path = Some x -> files (fst (Init zeroConfig main_fs args p)) !! path = Some x) /\
  readonly (fst (Init zeroConfig main_fs args p)) = readonly p /\
  (forall path,
     files p !! path = None ->
     files (fst (Init zeroConfig main_fs args p)) !! path <> None ->
     exists names v, commandLine args = (names, v, None) /\ path = vars.configFile v).
Proof.
  destruct (amounts_exists args) as (o & names & e & Ham).
  rewrite (Init_resolve _ _ _ _ _ Ham).
  pose proof (commandLine_amounts _ _ _ _ Ham) as Hcl.
  unfold resolve. cbv zeta.
  destruct e as [err|]; [by destruct err|].
  destruct (2 ^ 16 <=? _); [done|].
  destruct (vars.showHelp _); [done|].
  destruct (String.eqb _ ""); [done|].
  destruct (files p !! vars.configFile _) as [[|data]|] eqn:Hfile; [done| |].
  - by destruct (snd (json.Unmarshal _ _)).
  - cbn [json.MarshalIndent]. unfold ioutil.WriteFile.
    destruct (bool_decide _); cbn [fst files readonly]; [done|].
    repeat split.
    + intros path x Hx. rewrite lookup_insert_ne; [done|]. intros <-. congruence.
    + intros path Hnone Hsome. exists names, (overrides.apply o vars0). split; [done|].
      destruct (decide (vars.configFile (overrides.apply o vars0) = path)) as [<-|Hne];
        [done|]. by rewrite lookup_insert_ne in Hsome.
Qed.

(** X11.  The NATS URL and the request timeout are resolved in three
    layers.  When a flag of the field is given, the value is the one of
    the command line, else it is the one the config file defines; and when
    that value is the zero value (the empty string, 0) it is replaced by
    the default.  So a flag given with the zero value hides the file and
    yields the default. *)
Theorem own_fields_precedence args p q c' names v :
  commandLine args = (names, v, None) ->
  Init zeroConfig main_fs args p = (q, Return (c', None)) ->
  NatsURL c' =
  precedence (bool_decide ("n" ∈ names \/ "nats" ∈ names))
    (NatsURL (vars.c v)) (NatsURL (fromFile p (vars.configFile v)))
    (fun x => String.eqb x "") "nats://127.0.0.1:4222" /\
  RequestTimeout c' =
  precedence (bool_decide ("r" ∈ names \/ "reqtimeout" ∈ names))
    (RequestTimeout (vars.c v)) (RequestTimeout (fromFile p (vars.configFile v)))
    (fun x => x =? 0) 5.
Proof.
  intros Hcl HInit.
  destruct (Init_success _ _ _ _ _ _ Hcl HInit) as (o & -> & Hl & Hres).
  apply resolve_success in Hres as (Hport & _ & _ & _ & v2 & Hlay & ->).
  destruct Hl as (Hn & Hr & _).
  rewrite finish_layered, SetDefault_NatsURL, SetDefault_RequestTimeout,
    layered_NatsURL, layered_RequestTimeout.
  unfold precedence. split.
  - case_bool_decide as Hin.
    + apply Hn in Hin as [x Hx].
      assert (Hv : forall v, NatsURL (vars.c (overrides.apply o v)) = x)
        by (intros v; cbn; by rewrite Hx).
      rewrite (Hv vars0).
      destruct (layers_given NatsURL o p v2 x Hv Hlay) as [-> | ->]; [done|].
      rewrite SetDefault_NatsURL, (Hv vars0).
      by destruct (String.eqb x "") eqn:E; [|rewrite E].
    + assert (Hn' : overrides.o_NatsURL o = None) by (apply not_Some_None; tauto).
      destruct (layers_from_file NatsURL o p v2 separate_NatsURL) as [H|[Hz H]]; try done.
      * intros c; cbn. by rewrite Hn'.
      * cbn. by rewrite Hn'.
      * by rewrite H.
      * rewrite H, Hz, SetDefault_NatsURL. cbn. by rewrite Hn'.
  - case_bool_decide as Hin.
    + apply Hr in Hin as [x Hx].
      assert (Hv : forall v, RequestTimeout (vars.c (overrides.apply o v)) = x)
        by (intros v; cbn; by rewrite Hx).
      rewrite (Hv vars0).
      destruct (layers_given RequestTimeout o p v2 x Hv Hlay) as [-> | ->]; [done|].
      rewrite SetDefault_RequestTimeout, (Hv vars0).
      by destruct (x =? 0) eqn:E; [|rewrite E].
    + assert (Hn' : overrides.o_RequestTimeout o = None) by (apply not_Some_None; tauto).
      destruct (layers_from_file RequestTimeout o p v2 separate_RequestTimeout)
        as [H|[Hz H]]; try done.
      * intros c; cbn. by rewrite Hn'.
      * cbn. by rewrite Hn'.
      * by rewrite H.
      * rewrite H, Hz, SetDefault_RequestTimeout. cbn. by rewrite Hn'.
Qed.

Lemma own_fields_precedence_witness :
  exists q c',
    Init zeroConfig main_fs ["-c"; "cfg.json"; "-n"; ""; "-r"; "7"]
      (boot {[ "cfg.json" :=
                 Contents (Some (json.Object [("natsUrl", json.Str "nats://file:4222");
                                              ("requestTimeout", json.Integer 9)])) ]} ∅)
    = (q, Return (c', None)) /\
    NatsURL c' = "nats://127.0.0.1:4222" /\ RequestTimeout c' = 7.
Proof.
  set (args := ["-c"; "cfg.json"; "-n"; ""; "-r"; "7"]).
  set (p := boot {[ "cfg.json" :=
                 Contents (Some (json.Object [("natsUrl", json.Str "nats://file:4222");
                                              ("requestTimeout", json.Integer 9)])) ]} ∅).
  assert (Hcl : commandLine args
                = (fst (fst (commandLine args)), snd (fst (commandLine args)), None))
    by (vm_compute; reflexivity).
  assert (HInit : exists q c', Init zeroConfig main_fs args p = (q, Return (c', None))).
  { eexists _, _. vm_compute. reflexivity. }
  destruct HInit as (q & c' & HInit). exists q, c'. split; [exact HInit|].
  destruct (own_fields_precedence _ _ _ _ _ _ Hcl HInit) as [-> ->].
  split; vm_compute; reflexivity.
Defined.

(** X12.  No flag is bound to [Debug]: in the configuration [Init] returns
    it is what the config file says, and off when there is none. *)
Theorem Debug_comes_from_the_file args p q c' names v :
  commandLine args = (names, v, None) ->
  Init zeroConfig main_fs args p = (q, Return (c', None)) ->
  Debug c' = Debug (fromFile p (vars.configFile v)).
Proof.
  intros Hcl HInit.
  destruct (Init_success _ _ _ _ _ _ Hcl HInit) as (o & -> & Hl & Hres).
  apply resolve_success in Hres as (Hport & _ & _ & _ & v2 & Hlay & ->).
  rewrite finish_layered, SetDefault_Debug, layered_Debug.
  destruct (layers_from_file Debug o p v2 separate_Debug) as [H|[Hz H]]; try done.
  rewrite H, Hz. by rewrite SetDefault_Debug.
Qed.

Lemma Debug_comes_from_the_file_witness :
  exists q c',
    Init zeroConfig main_fs ["-c"; "cfg.json"]
      (boot {[ "cfg.json" := Contents (Some (json.Object [("debug", json.Bool true)])) ]} ∅)
    = (q, Return (c', None)) /\
    Debug c' = true.
Proof.
  assert (Hcl : exists names v,
             commandLine ["-c"; "cfg.json"] = (names, v, None) /\
             vars.configFile v = "cfg.json").
  { eexists _, _. split; [vm_compute; reflexivity|reflexivity]. }
  destruct Hcl as (names & v & Hcl & Hcf).
  assert (HInit : exists q c',
             Init zeroConfig main_fs ["-c"; "cfg.json"]
               (boot {[ "cfg.json" :=
                          Contents (Some (json.Object [("debug", json.Bool true)])) ]} ∅)
             = (q, Return (c', None))).
  { eexists _, _. vm_compute. reflexivity. }
  destruct HInit as (q & c' & HInit). exists q, c'. split; [exact HInit|].
  rewrite (Debug_comes_from_the_file _ _ _ _ _ _ Hcl HInit), Hcf. reflexivity.
Defined.

(** X13.  A config file with a member that its field cannot take
    ([natsUrl] that is not a string, [requestTimeout] that is not an
    integer of 64 bits, [debug] that is not a boolean), wherever the
    member stands in the object, makes [Init] return the error of the
    decoder as "error parsing config file"; nothing is written and nothing
    is printed by [Init]. *)
Theorem mistyped_config_file args p names v ms key x :
  commandLine args = (names, v, None) ->
  vars.port v < 2 ^ 16 -> vars.showHelp v = false -> vars.configFile v <> "" ->
  files p !! vars.configFile v = Some (Contents (Some (json.Object ms))) ->
  In (key, x) ms -> mistyped key x = true ->
  exists c' field,
    Init zeroConfig main_fs args p =
    (p, Return (c', Some (ErrorParsingConfigFile (UnmarshalTypeError field)))).
Proof.
  intros Hcl Hport Hhelp Hcf Hfile Hin Hx.
  destruct (Init_commandLine args p _ _ Hcl) as (o & -> & _ & ->).
  destruct (mistyped_store _ _ Hx) as (f & Hf & Hbad).
  destruct (snd (json.Unmarshal (Some (json.Object ms)) (vars.c (overrides.apply o vars0))))
    as [err|] eqn:Hun.
  - rewrite (resolve_malformed o names p Hport Hhelp Hcf _ err Hfile Hun).
    cbn [json.Unmarshal] in Hun. apply object_error_type in Hun as [field ->]; [eauto|].
    intros e' [=].
  - exfalso. revert Hun. cbn [json.Unmarshal]. by apply (object_bad_member ms key x f).
Qed.

Lemma mistyped_config_file_witness :
  exists c' field,
    Init zeroConfig main_fs ["-c"; "cfg.json"]
      (boot {[ "cfg.json" :=
                 Contents (Some (json.Object [("natsUrl", json.Str "nats://file:4222");
                                              ("requestTimeout", json.Str "5")])) ]} ∅)
    = (boot {[ "cfg.json" :=
                 Contents (Some (json.Object [("natsUrl", json.Str "nats://file:4222");
                                              ("requestTimeout", json.Str "5")])) ]} ∅,
       Return (c', Some (ErrorParsingConfigFile (UnmarshalTypeError field)))).
Proof.
  assert (Hcl : exists names v,
             commandLine ["-c"; "cfg.json"] = (names, v, None) /\
             vars.port v = 0 /\ vars.showHelp v = false /\ vars.configFile v = "cfg.json").
  { eexists _, _. split; [vm_compute; reflexivity|]. repeat split. }
  destruct Hcl as (names & v & Hcl & Hport & Hhelp & Hcf).
  apply (mistyped_config_file ["-c"; "cfg.json"] _ names v
           [("natsUrl", json.Str "nats://file:4222"); ("requestTimeout", json.Str "5")]
           "requestTimeout" (json.Str "5") Hcl).
  - rewrite Hport. lia.
  - exact Hhelp.
  - rewrite Hcf. discriminate.
  - rewrite Hcf. reflexivity.
  - right; left. reflexivity.
  - reflexivity.
Defined.

(** ** The encoding of the configuration *)





(** X16.  Whatever the command line, a run that finds no file at the
    config path and writes the bootstrap file can be repeated: the same
    arguments on the file it has written return the same configuration,
    and the file is left as it is. *)
Theorem bootstrap_is_idempotent args p names v :
  commandLine args = (names, v, None) ->
  vars.port v < 2 ^ 16 -> vars.showHelp v = false -> vars.configFile v <> "" ->
  files p !! vars.configFile v = None -> vars.configFile v ∉ readonly p ->
  exists q c',
    Init zeroConfig main_fs args p = (q, Return (c', None)) /\
    files q !! vars.configFile v = Some (Contents (Some (bootstrap v))) /\
    Init zeroConfig main_fs args q = (q, Return (c', None)).
Proof.
  intros Hcl Hport Hhelp Hcf Hfile Hro.
  pose proof (commandLine_RequestTimeout _ _ _ _ Hcl) as Hrt.
  pose proof (Init_writes_bootstrap args p names v Hcl Hport Hhelp Hcf Hfile Hro) as H1.
  eexists _, _. split; [exact H1|].
  assert (Hq : files (written (vars.configFile v) (bootstrap v) p) !! vars.configFile v
               = Some (Contents (Some (bootstrap v)))).
  { unfold written. cbn [files]. apply lookup_insert_eq. }
  split; [exact Hq|]. clear H1.
  destruct (amounts_exists args) as (o & names' & e & Ham).
  rewrite (commandLine_amounts _ _ _ _ Ham) in Hcl. injection Hcl as -> <- ->.
  rewrite !(Init_resolve _ _ _ _ _ Ham).
  set (v := overrides.apply o vars0) in *.
  assert (Hun : json.Unmarshal (Some (bootstrap v)) (vars.c v)
                = (SetDefault (vars.c v), None)).
  { unfold bootstrap. rewrite (Unmarshal_encode (SetDefault (vars.c v)) (vars.c v)).
    - f_equal. apply Config_eq; try reflexivity. cbn [Debug set_Debug].
      rewrite SetDefault_Debug. by destruct (Debug (vars.c v)).
    - rewrite SetDefault_RequestTimeout. destruct (_ =? 0); lia.
    - rewrite SetDefault_Port. cbn. lia. }
  rewrite (resolve_file o names _ Hport Hhelp Hcf _ _ Hq Hun). fold v.
  f_equal. f_equal. f_equal. rewrite !finish_layered.
  apply Config_eq;
    rewrite ?SetDefault_NatsURL, ?SetDefault_RequestTimeout, ?SetDefault_Debug,
      ?SetDefault_Port, ?SetDefault_WSPath, ?SetDefault_APIPath, ?SetDefault_HeaderAuth,
      ?SetDefault_TLS, ?SetDefault_TLSCert, ?SetDefault_TLSKey;
    rewrite ?layered_NatsURL, ?layered_RequestTimeout, ?layered_Debug,
      ?layered_Port, ?layered_WSPath, ?layered_APIPath, ?layered_HeaderAuth,
      ?layered_TLS, ?layered_TLSCert, ?layered_TLSKey.
  all: cbn [vars.c vars.set_c vars.port vars.headauth overrides.apply NatsURL
            RequestTimeout Debug Port WSPath APIPath HeaderAuth TLS TLSCert TLSKey
            server_Config server.Port server.WSPath server.APIPath server.HeaderAuth
            server.TLS server.TLSCert server.TLSKey].
  all: rewrite ?SetDefault_NatsURL, ?SetDefault_RequestTimeout, ?SetDefault_Debug,
      ?SetDefault_Port, ?SetDefault_WSPath, ?SetDefault_APIPath, ?SetDefault_HeaderAuth,
      ?SetDefault_TLS, ?SetDefault_TLSCert, ?SetDefault_TLSKey.
  all: subst v; cbn.
  - destruct (overrides.o_NatsURL o) as [x|]; cbn; [|done].
    by destruct (String.eqb x "") eqn:E; cbn; rewrite ?E.
  - destruct (overrides.o_RequestTimeout o) as [x|]; cbn; [|done].
    by destruct (x =? 0) eqn:E; cbn; rewrite ?E.
  - done.
  - by destruct (overrides.o_port o).
  - destruct (overrides.o_WSPath o) as [x|]; cbn; [|done].
    by destruct (String.eqb x "") eqn:E; cbn; rewrite ?E.
  - destruct (overrides.o_APIPath o) as [x|]; cbn; [|done].
    by destruct (String.eqb x "") eqn:E; cbn; rewrite ?E.
  - by destruct (overrides.o_headauth o).
  - by destruct (overrides.o_TLS o).
  - by destruct (overrides.o_TLSCert o).
  - by destruct (overrides.o_TLSKey o).
Qed.

Lemma bootstrap_is_idempotent_witness :
  exists q c',
    Init zeroConfig main_fs ["-p"; "81"; "-u"; "auth.check"; "-c"; "new.json"] (boot ∅ ∅)
    = (q, Return (c', None)) /\
    Init zeroConfig main_fs ["-p"; "81"; "-u"; "auth.check"; "-c"; "new.json"] q
    = (q, Return (c', None)).
Proof.
  assert (Hcl : exists names v,
             commandLine ["-p"; "81"; "-u"; "auth.check"; "-c"; "new.json"]
             = (names, v, None) /\
             vars.port v = 81 /\ vars.showHelp v = false /\ vars.configFile v = "new.json").
  { eexists _, _. split; [vm_compute; reflexivity|]. repeat split. }
  destruct Hcl as (names & v & Hcl & Hport & Hhelp & Hcf).
  destruct (bootstrap_is_idempotent _ (boot ∅ ∅) names v Hcl) as (q & c' & H1 & _ & H2).
  - rewrite Hport. lia.
  - exact Hhelp.
  - rewrite Hcf. discriminate.
  - rewrite Hcf. reflexivity.
  - rewrite Hcf. apply (bool_decide_unpack _). vm_compute. exact I.
  - exists q, c'. split; [exact H1|exact H2].
Defined.

(** X17.  [SetDefault] is idempotent: the defaults it fills in are not
    zero values, so a second call changes nothing (with
    [server.Config.SetDefault] as the spec describes it).  [Init] relies on
    it when it calls [SetDefault] before the bootstrap file is written and
    again at its end. *)
Theorem SetDefault_idempotent c : SetDefault (SetDefault c) = SetDefault c.
Proof.
  apply Config_eq;
    rewrite ?SetDefault_NatsURL, ?SetDefault_RequestTimeout, ?SetDefault_Debug,
      ?SetDefault_Port, ?SetDefault_WSPath, ?SetDefault_APIPath, ?SetDefault_HeaderAuth,
      ?SetDefault_TLS, ?SetDefault_TLSCert, ?SetDefault_TLSKey; try reflexivity.
  - by destruct (String.eqb (NatsURL c) "") eqn:E; [|rewrite E].
  - by destruct (RequestTimeout c =? 0) eqn:E; [|rewrite E].
  - by destruct (Port c =? 0) eqn:E; [|rewrite E].
  - by destruct (String.eqb (WSPath c) "") eqn:E; [|rewrite E].
  - by destruct (String.eqb (APIPath c) "") eqn:E; [|rewrite E].
Qed.

(** ** The run of [main] *)

(** X18.  When [Init] returns an error, [main] prints the error on
    standard error, without the usage text, and exits with status 1; the
    service is not built, and no file has been written. *)
Theorem config_error_in_main args env p q cfg err :
  Init zeroConfig main_fs args p = (q, Return (cfg, Some err)) ->
  main args env p =
  (mkProcess (files p) (readonly p) (stdout p) (stderr p ++ [ErrorText err])
     (calls p) (clock p),
   Exit 1).
Proof.
  intros HInit. pose proof (Init_error_unchanged _ _ _ _ _ HInit) as ->.
  unfold main, bind. by rewrite HInit.
Qed.

Lemma config_error_in_main_witness :
  main ["--config"; "cfg.json"] (mkEnvironment None None None None None false)
    (boot {[ "cfg.json" := Contents None ]} ∅) =
  (mkProcess {[ "cfg.json" := Contents None ]} ∅ []
     [ErrorText (ErrorParsingConfigFile SyntaxError)] [] 0,
   Exit 1).
Proof.
  assert (HInit : exists q cfg,
             Init zeroConfig main_fs ["--config"; "cfg.json"]
               (boot {[ "cfg.json" := Contents None ]} ∅)
             = (q, Return (cfg, Some (ErrorParsingConfigFile SyntaxError)))).
  { eexists _, _. vm_compute. reflexivity. }
  destruct HInit as (q & cfg & HInit).
  exact (config_error_in_main _ _ _ _ _ _ HInit).
Defined.

(** X19.  When [serv.Start()] returns an error, [main] prints it on
    standard error and exits with status 1 right after the four calls that
    build and start the service: it waits for nothing and does not call
    [Stop]. *)
Theorem start_error_in_main args env p q cfg err :
  Init zeroConfig main_fs args p = (q, Return (cfg, None)) ->
  Start_returns env = Some err ->
  main args env p =
  (later_on (served cfg q) [] [ErrorText err] 0, Exit 1).
Proof.
  intros HInit Hstart. unfold main, bind. rewrite HInit. cbn [fst snd].
  rewrite main_serve_started, Hstart. unfold later_on, served, printAndDie, bind. cbn.
  by rewrite app_nil_r, Z.add_0_r.
Qed.

Lemma start_error_in_main_witness :
  main [] (mkEnvironment (Some (ServiceError "listen: address in use")) (Some 3) None None
             (Some 1) false) (boot ∅ ∅) =
  (later_on (served (SetDefault zeroConfig) (boot ∅ ∅)) []
     [ErrorText (ServiceError "listen: address in use")] 0,
   Exit 1).
Proof.
  apply (start_error_in_main [] _ (boot ∅ ∅) (boot ∅ ∅) (SetDefault zeroConfig)).
  - vm_compute. reflexivity.
  - reflexivity.
Defined.

(** X20.  The graceful stop.  The service has started, a signal arrives
    after [t] ns, before the service sends on its channel (or at the same
    time, the select taking the signal or the service sending [nil]), and
    [serv.Stop(nil)] returns within less than [stopTimeout]: [main] calls
    [Stop] once, prints nothing and returns, [t + d] ns after the first
    select was entered. *)
Theorem graceful_stop args env p q cfg t d :
  Init zeroConfig main_fs args p = (q, Return (cfg, None)) ->
  Start_returns env = None ->
  signal_after env = Some t ->
  (match StopChannel_after env with
   | None => True
   | Some t' => t < t' \/ (t = t' /\ (tie env = true \/ StopChannel_sends env = None))
   end) ->
  Stop_takes env = Some d -> d < stopTimeout ->
  main args env p = (later_on (served cfg q) [Stop] [] (t + d), Return (inl tt)).
Proof.
  intros HInit Hstart Hsig Hchan Hstop Hd. unfold main, bind. rewrite HInit. cbn [fst snd].
  rewrite main_serve_started, Hstart. unfold bind.
  assert (Hsel : select (signal_after env, ret tt)
                   (StopChannel_after env,
                    match StopChannel_sends env with
                    | Some err => printAndDie (ErrorText err) false
                    | None => ret tt
                    end) (tie env) (served cfg q)
                 = (later_on (served cfg q) [] [] t, Return (inl tt))).
  { unfold select, later_on. cbn [fst snd]. rewrite Hsig. rewrite !app_nil_r.
    destruct (StopChannel_after env) as [t'|]; [|reflexivity].
    destruct Hchan as [Hlt|[<- Htie]].
    - apply Z.ltb_lt in Hlt. by rewrite Hlt.
    - rewrite Z.ltb_irrefl. destruct Htie as [-> | ->]; [reflexivity|].
      by destruct (tie env). }
  rewrite Hsel. unfold main_shutdown, select, bind. cbn [fst snd]. rewrite Hstop.
  apply Z.ltb_lt in Hd. rewrite Hd. unfold later_on, call_, wait, ret, served. cbn.
  by rewrite !app_nil_r, Z.add_assoc.
Qed.

Lemma graceful_stop_witness :
  main [] (mkEnvironment None (Some 3) (Some 3) (Some (ServiceError "lost")) (Some 1) true)
    (boot ∅ ∅) =
  (later_on (served (SetDefault zeroConfig) (boot ∅ ∅)) [Stop] [] (3 + 1), Return (inl tt)).
Proof.
  apply (graceful_stop [] _ (boot ∅ ∅) (boot ∅ ∅) (SetDefault zeroConfig) 3 1).
  - vm_compute. reflexivity.
  - reflexivity.
  - reflexivity.
  - right. split; [reflexivity|]. left. reflexivity.
  - reflexivity.
  - reflexivity.
Defined.

(** X21.  With the service started, no signal and nothing sent on the
    channel of the service, [main] stays in its first select: it does not
    return and does not exit, and [Stop] is not called. *)
Theorem main_serves_until_triggered args env p q cfg :
  Init zeroConfig main_fs args p = (q, Return (cfg, None)) ->
  Start_returns env = None ->
  signal_after env = None -> StopChannel_after env = None ->
  main args env p = (served cfg q, Return (inr Blocked)).
Proof.
  intros HInit Hstart Hsig Hchan. unfold main, bind. rewrite HInit. cbn [fst snd].
  rewrite main_serve_started, Hstart. unfold bind, select. cbn [fst snd].
  by rewrite Hsig, Hchan.
Qed.

Lemma main_serves_until_triggered_witness :
  main [] (mkEnvironment None None None None (Some 1) false) (boot ∅ ∅) =
  (served (SetDefault zeroConfig) (boot ∅ ∅), Return (inr Blocked)).
Proof.
  apply (main_serves_until_triggered [] _ (boot ∅ ∅) (boot ∅ ∅) (SetDefault zeroConfig)).
  - vm_compute. reflexivity.
  - reflexivity.
  - reflexivity.
  - reflexivity.
Defined.

(** X22.  The ways [main] can end: it returns, it stays blocked in a
    select, it exits with status 0 (usage, also after a parse error) or 1,
    or it panics with "Shutdown timed out".  Status 2, the one of the flag
    package, never shows. *)
Theorem main_outcomes args env p :
  snd (main args env p) = Return (inl tt) \/
  snd (main args env p) = Return (inr Blocked) \/
  snd (main args env p) = Exit 0 \/
  snd (main args env p) = Exit 1 \/
  snd (main args env p) = Panic "Shutdown timed out".
Proof.
  unfold main, bind.
  destruct (Init_outcomes args p) as [[r Hr]|[Hr|Hr]];
    destruct (Init zeroConfig main_fs args p) as [q o]; cbn [snd] in Hr; subst o;
    [|tauto|tauto].
  destruct r as [cfg [err|]]; cbn [fst snd]; [tauto|].
  rewrite main_serve_started. destruct (Start_returns env); [tauto|].
  unfold bind.
  assert (Hsel : forall p0,
    (exists p1, select (signal_after env, ret tt)
                  (StopChannel_after env,
                   match StopChannel_sends env with
                   | Some err => printAndDie (ErrorText err) false
                   | None => ret tt
                   end) (tie env) p0 = (p1, Return (inl tt))) \/
    snd (select (signal_after env, ret tt)
           (StopChannel_after env,
            match StopChannel_sends env with
            | Some err => printAndDie (ErrorText err) false
            | None => ret tt
            end) (tie env) p0) = Return (inr Blocked) \/
    snd (select (signal_after env, ret tt)
           (StopChannel_after env,
            match StopChannel_sends env with
            | Some err => printAndDie (ErrorText err) false
            | None => ret tt
            end) (tie env) p0) = Exit 1).
  { intros p0. unfold select. cbn [fst snd].
    destruct (signal_after env) as [s|], (StopChannel_after env) as [t|],
      (StopChannel_sends env) as [err|]; cbn; eauto;
      repeat match goal with |- context [if ?b then _ else _] => destruct b end;
      cbn; eauto. }
  destruct (Hsel (served cfg q)) as [[p1 ->]|[H|H]].
  - unfold main_shutdown, select, bind. cbn [fst snd].
    destruct (Stop_takes env) as [d|]; cbn; [|tauto].
    repeat match goal with |- context [if ?b then _ else _] => destruct b end; cbn; tauto.
  - destruct (select _ _ _ _) as [p1 o]. cbn [snd] in H. subst o. tauto.
  - destruct (select _ _ _ _) as [p1 o]. cbn [snd] in H. subst o. tauto.
Qed.

(** X23.  The calls [main] makes to the logger and the service: none
    unless [Init] returns a configuration without an error; then the four
    calls that build and start the service from that configuration, in
    their order, followed by [Stop] at most once. *)
Theorem main_calls args env p :
  calls (fst (main args env p)) = calls p \/
  exists q cfg,
    Init zeroConfig main_fs args p = (q, Return (cfg, None)) /\
    (calls (fst (main args env p)) = calls (served cfg p) \/
     calls (fst (main args env p)) = (calls (served cfg p) ++ [Stop])%list).
Proof.
  destruct (Init_frame args p) as (Hcalls & _ & _).
  unfold main, bind.
  destruct (Init zeroConfig main_fs args p) as [q [[cfg [err|]]|code|msg]];
    cbn [fst snd] in *; try (by left).
  right. exists q, cfg. split; [done|].
  assert (Hserved : calls (served cfg q) = calls (served cfg p))
    by (unfold served; cbn [calls]; by rewrite Hcalls).
  rewrite <- Hserved. apply main_serve_calls.
Qed.

(** X24.  The request timeout goes to the NATS client in nanoseconds,
    computed in 64 bits: up to 9223372036 seconds it is the number of
    seconds times 10^9, and from 9223372037 to 18446744073 seconds the
    product wraps around and the client is given a negative duration. *)
Theorem request_timeout_in_ns args env p q cfg :
  Init zeroConfig main_fs args p = (q, Return (cfg, None)) ->
  exists t,
    NewService (NatsURL cfg) t (server_Config cfg) ∈ calls (fst (main args env p)) /\
    (- 9223372036 <= RequestTimeout cfg <= 9223372036 ->
     t = RequestTimeout cfg * 1000000000) /\
    (9223372037 <= RequestTimeout cfg <= 18446744073 -> t < 0).
Proof.
  intros HInit. exists (wrap64 (RequestTimeout cfg * 1000000000)). split; [|split].
  - unfold main, bind. rewrite HInit. cbn [fst snd].
    assert (Hin : NewService (NatsURL cfg) (wrap64 (RequestTimeout cfg * 1000000000))
                    (server_Config cfg) ∈ calls (served cfg q)).
    { unfold served. cbn [calls]. rewrite !elem_of_app, !list_elem_of_singleton. tauto. }
    destruct (main_serve_calls env cfg q) as [-> | ->]; [done|].
    rewrite elem_of_app. by left.
  - intros Hr. unfold wrap64.
    rewrite Z.mod_small by (change (2 ^ 63) with 9223372036854775808;
                            change (2 ^ 64) with 18446744073709551616; lia).
    lia.
  - intros Hr. unfold wrap64.
    change (2 ^ 63) with 9223372036854775808. change (2 ^ 64) with 18446744073709551616.
    replace (RequestTimeout cfg * 1000000000 + 9223372036854775808)
      with (RequestTimeout cfg * 1000000000 - 9223372036854775808
            + 1 * 18446744073709551616) by lia.
    rewrite Z.mod_add by lia. rewrite Z.mod_small by lia. lia.
Qed.

Lemma request_timeout_in_ns_witness :
  exists t,
    NewService "nats://127.0.0.1:4222" t (server.mkConfig 8080 "/" "/api/" None false "" "")
      ∈ calls (fst (main ["-r"; "9223372037"]
                      (mkEnvironment None None None None None false) (boot ∅ ∅))) /\
    t < 0.
Proof.
  assert (HInit : exists q cfg,
             Init zeroConfig main_fs ["-r"; "9223372037"] (boot ∅ ∅)
             = (q, Return (cfg, None)) /\
             NatsURL cfg = "nats://127.0.0.1:4222" /\
             server_Config cfg = server.mkConfig 8080 "/" "/api/" None false "" "" /\
             RequestTimeout cfg = 9223372037).
  { eexists _, _. split; [vm_compute; reflexivity|]. repeat split. }
  destruct HInit as (q & cfg & HInit & HN & HS & HR).
  destruct (request_timeout_in_ns _ (mkEnvironment None None None None None false)
              _ _ _ HInit) as (t & Hin & _ & Hneg).
  exists t. split.
  - rewrite <- HN, <- HS. exact Hin.
  - apply Hneg. rewrite HR. lia.
Defined.
